(** * Events map: network-first loading with a cache fallback, and the event form

    A shallow embedding of the TypeScript sources of the events application:
    - [src/types/Event.ts]                the [Event] record;
    - [src/pages/EventsMap.tsx]           [fetchAndCacheEvents] and [handleLogout];
    - [src/services/api.ts] (part_001)    [getEvents] and [createEvent];
    - the CreateEvent page (part_000)     [isoDateTime], [numericVolunteers],
                                          [canSave] and [handleSave].

    The caching service imported by EventsMap.tsx ([getFromNetworkFirst] and
    [setInCache] from [../services/caching]) is not among the sources; it is
    modelled from the specification (section 4.1) below.

    JavaScript values that travel through the cache are JSON values.  JS
    numbers are modelled as finite decimals [m * 10^-d]; NaN and the
    infinities, which JSON.stringify turns into [null], are kept apart in
    the form model. *)

From Stdlib Require Import Ascii String ZArith List Lia.
From stdpp Require Import base gmap strings list.
Import ListNotations.

Set Warnings "-register-all".

(* ------------------------------------------------------------------ *)
(** ** JSON text: JSON.stringify and JSON.parse *)

Module JSON.

Local Open Scope Z_scope.

Inductive value : Type :=
| JNull
| JBool (b : bool)
| JNum (m : Z) (d : nat)                 (* the number m * 10^-d *)
| JStr (s : list ascii)
| JArr (l : list value)
| JObj (l : list (list ascii * value)).

Definition dq : ascii := "034"%char.     (* the double quote *)
Definition bs : ascii := "092"%char.     (* the backslash *)

(** Decimal digits. *)
Definition digit_char (n : Z) : ascii := ascii_of_nat (48 + Z.to_nat n)%nat.

Definition char_digit (c : ascii) : option Z :=
  let n := nat_of_ascii c in
  if (48 <=? n)%nat && (n <=? 57)%nat then Some (Z.of_nat (n - 48)%nat) else None.

Fixpoint digits_val (acc : Z) (l : list Z) : Z :=
  match l with
  | [] => acc
  | d :: l' => digits_val (acc * 10 + d) l'
  end.

(** The last [k] decimal digits of [v], most significant first. *)
Fixpoint pad_digits (k : nat) (v : Z) : list Z :=
  match k with
  | O => []
  | S k' => pad_digits k' (v / 10) ++ [v mod 10]
  end.

Definition pad (k : nat) (v : Z) : list ascii := map digit_char (pad_digits k v).

(** Number of decimal digits of a natural number (at least one). *)
Fixpoint ndig_fuel (fuel : nat) (v : Z) : nat :=
  match fuel with
  | O => 1
  | S f => if v <? 10 then 1 else S (ndig_fuel f (v / 10))
  end.

Definition ndig (v : Z) : nat := ndig_fuel (Z.to_nat v) v.

Definition print_number (m : Z) (d : nat) : list ascii :=
  let a := Z.abs m / 10 ^ Z.of_nat d in
  let f := Z.abs m mod 10 ^ Z.of_nat d in
  (if m <? 0 then ["-"%char] else [])
    ++ pad (ndig a) a
    ++ match d with O => [] | S _ => "."%char :: pad d f end.

(** String escapes, as JSON.stringify writes them (ASCII range). *)
Definition hex_char (n : nat) : ascii :=
  if (n <? 10)%nat then ascii_of_nat (48 + n)%nat else ascii_of_nat (87 + n)%nat.

Definition hex_val (c : ascii) : option nat :=
  let n := nat_of_ascii c in
  if (48 <=? n)%nat && (n <=? 57)%nat then Some (n - 48)%nat
  else if (97 <=? n)%nat && (n <=? 102)%nat then Some (n - 87)%nat
  else if (65 <=? n)%nat && (n <=? 70)%nat then Some (n - 55)%nat
  else None.

Definition escape_char (c : ascii) : list ascii :=
  let n := nat_of_ascii c in
  if Ascii.eqb c dq then [bs; dq]
  else if Ascii.eqb c bs then [bs; bs]
  else if (n =? 8)%nat then [bs; "b"%char]
  else if (n =? 9)%nat then [bs; "t"%char]
  else if (n =? 10)%nat then [bs; "n"%char]
  else if (n =? 12)%nat then [bs; "f"%char]
  else if (n =? 13)%nat then [bs; "r"%char]
  else if (n <? 32)%nat then
    [bs; "u"%char; "0"%char; "0"%char; hex_char (n / 16)%nat; hex_char (n mod 16)%nat]
  else [c].

Definition quote (s : list ascii) : list ascii :=
  dq :: flat_map escape_char s ++ [dq].

Fixpoint stringify (v : value) : list ascii :=
  match v with
  | JNull => ["n"; "u"; "l"; "l"]%char
  | JBool true => ["t"; "r"; "u"; "e"]%char
  | JBool false => ["f"; "a"; "l"; "s"; "e"]%char
  | JNum m d => print_number m d
  | JStr s => quote s
  | JArr l =>
      "["%char ::
      match l with
      | [] => ["]"%char]
      | x :: l' =>
          stringify x ++
          (fix tail (l : list value) : list ascii :=
             match l with
             | [] => ["]"%char]
             | y :: l'' => ","%char :: stringify y ++ tail l''
             end) l'
      end
  | JObj l =>
      "{"%char ::
      match l with
      | [] => ["}"%char]
      | (k, x) :: l' =>
          quote k ++ ":"%char :: stringify x ++
          (fix tail (l : list (list ascii * value)) : list ascii :=
             match l with
             | [] => ["}"%char]
             | (k', y) :: l'' => ","%char :: quote k' ++ ":"%char :: stringify y ++ tail l''
             end) l'
      end
  end.


(** The two tails of [stringify], as functions of their own, and a size
    measure that bounds the parser's fuel. *)
Fixpoint stringify_tail (l : list value) : list ascii :=
  match l with
  | [] => ["]"%char]
  | y :: l'' => ","%char :: stringify y ++ stringify_tail l''
  end.

Fixpoint stringify_mtail (l : list (list ascii * value)) : list ascii :=
  match l with
  | [] => ["}"%char]
  | (k', y) :: l'' => ","%char :: quote k' ++ ":"%char :: stringify y ++ stringify_mtail l''
  end.

Fixpoint jsize (v : value) : nat :=
  match v with
  | JArr l =>
      S ((fix go (l : list value) : nat :=
            match l with [] => O | x :: l' => S (jsize x + go l') end) l)
  | JObj l =>
      S ((fix go (l : list (list ascii * value)) : nat :=
            match l with [] => O | (_, x) :: l' => S (jsize x + go l') end) l)
  | _ => 1%nat
  end.

Fixpoint lsize (l : list value) : nat :=
  match l with [] => O | x :: l' => S (jsize x + lsize l') end.

Fixpoint msize (l : list (list ascii * value)) : nat :=
  match l with [] => O | (_, x) :: l' => S (jsize x + msize l') end.

(** What may follow a value inside a larger JSON text. *)
Definition delim (r : list ascii) : Prop :=
  match r with
  | [] => True
  | c :: _ => c = ","%char \/ c = "]"%char \/ c = "}"%char
  end.

(** Parsing. *)
Definition is_ws (c : ascii) : bool :=
  let n := nat_of_ascii c in
  (n =? 32)%nat || (n =? 9)%nat || (n =? 10)%nat || (n =? 13)%nat.

Fixpoint skip_ws (s : list ascii) : list ascii :=
  match s with
  | c :: r => if is_ws c then skip_ws r else s
  | [] => []
  end.

Fixpoint span_digits (s : list ascii) : list Z * list ascii :=
  match s with
  | c :: r =>
      match char_digit c with
      | Some d => let '(ds, r') := span_digits r in (d :: ds, r')
      | None => ([], s)
      end
  | [] => ([], [])
  end.

Definition parse_number (s : list ascii) : option (value * list ascii) :=
  let '(neg, s1) :=
    match s with
    | c :: r => if Ascii.eqb c "-"%char then (true, r) else (false, s)
    | [] => (false, [])
    end in
  match span_digits s1 with
  | ([], _) => None
  | (ip, s2) =>
      let frac :=
        match s2 with
        | c :: r =>
            if Ascii.eqb c "."%char then
              match span_digits r with
              | ([], _) => None
              | res => Some res
              end
            else Some ([], s2)
        | [] => Some ([], [])
        end in
      match frac with
      | None => None
      | Some (fp, s3) =>
          let mag := digits_val (digits_val 0 ip) fp in
          Some (JNum (if neg then - mag else mag) (length fp), s3)
      end
  end.

Definition unescape (c : ascii) : option ascii :=
  if Ascii.eqb c dq then Some dq
  else if Ascii.eqb c bs then Some bs
  else if Ascii.eqb c "/"%char then Some "/"%char
  else if Ascii.eqb c "b"%char then Some (ascii_of_nat 8)
  else if Ascii.eqb c "t"%char then Some (ascii_of_nat 9)
  else if Ascii.eqb c "n"%char then Some (ascii_of_nat 10)
  else if Ascii.eqb c "f"%char then Some (ascii_of_nat 12)
  else if Ascii.eqb c "r"%char then Some (ascii_of_nat 13)
  else None.

(** The characters of a string literal after its opening quote. *)
Fixpoint parse_chars (s : list ascii) : option (list ascii * list ascii) :=
  match s with
  | [] => None
  | c :: r =>
      if Ascii.eqb c dq then Some ([], r)
      else if Ascii.eqb c bs then
        match r with
        | u :: r1 =>
            if Ascii.eqb u "u"%char then
              match r1 with
              | h1 :: h2 :: h3 :: h4 :: r' =>
                  match hex_val h1, hex_val h2, hex_val h3, hex_val h4 with
                  | Some a, Some b, Some e, Some f =>
                      let n := (((a * 16 + b) * 16 + e) * 16 + f)%nat in
                      if (n <? 256)%nat then
                        match parse_chars r' with
                        | Some (t, r'') => Some (ascii_of_nat n :: t, r'')
                        | None => None
                        end
                      else None
                  | _, _, _, _ => None
                  end
              | _ => None
              end
            else
              match unescape u with
              | Some c' =>
                  match parse_chars r1 with
                  | Some (t, r'') => Some (c' :: t, r'')
                  | None => None
                  end
              | None => None
              end
        | [] => None
        end
      else if (nat_of_ascii c <? 32)%nat then None
      else
        match parse_chars r with
        | Some (t, r') => Some (c :: t, r')
        | None => None
        end
  end.

Definition parse_string (s : list ascii) : option (list ascii * list ascii) :=
  match skip_ws s with
  | c :: r => if Ascii.eqb c dq then parse_chars r else None
  | [] => None
  end.

Definition starts_with (c : ascii) (s : list ascii) : option (list ascii) :=
  match skip_ws s with
  | c' :: r => if Ascii.eqb c' c then Some r else None
  | [] => None
  end.

Fixpoint parse_value (fuel : nat) (s : list ascii) : option (value * list ascii) :=
  match fuel with
  | O => None
  | S f =>
      match skip_ws s with
      | [] => None
      | c :: r =>
          if Ascii.eqb c "n"%char then
            match r with
            | "u" :: "l" :: "l" :: r' => Some (JNull, r')
            | _ => None
            end%char
          else if Ascii.eqb c "t"%char then
            match r with
            | "r" :: "u" :: "e" :: r' => Some (JBool true, r')
            | _ => None
            end%char
          else if Ascii.eqb c "f"%char then
            match r with
            | "a" :: "l" :: "s" :: "e" :: r' => Some (JBool false, r')
            | _ => None
            end%char
          else if Ascii.eqb c dq then
            match parse_chars r with
            | Some (t, r') => Some (JStr t, r')
            | None => None
            end
          else if Ascii.eqb c "["%char then
            match starts_with "]"%char r with
            | Some r' => Some (JArr [], r')
            | None =>
                match parse_value f r with
                | Some (x, r1) =>
                    match parse_elems f r1 with
                    | Some (xs, r2) => Some (JArr (x :: xs), r2)
                    | None => None
                    end
                | None => None
                end
            end
          else if Ascii.eqb c "{"%char then
            match starts_with "}"%char r with
            | Some r' => Some (JObj [], r')
            | None =>
                match parse_string r with
                | Some (k, r1) =>
                    match starts_with ":"%char r1 with
                    | Some r2 =>
                        match parse_value f r2 with
                        | Some (x, r3) =>
                            match parse_members f r3 with
                            | Some (xs, r4) => Some (JObj ((k, x) :: xs), r4)
                            | None => None
                            end
                        | None => None
                        end
                    | None => None
                    end
                | None => None
                end
            end
          else parse_number (c :: r)
      end
  end
with parse_elems (fuel : nat) (s : list ascii) : option (list value * list ascii) :=
  match fuel with
  | O => None
  | S f =>
      match skip_ws s with
      | c :: r =>
          if Ascii.eqb c "]"%char then Some ([], r)
          else if Ascii.eqb c ","%char then
            match parse_value f r with
            | Some (x, r1) =>
                match parse_elems f r1 with
                | Some (xs, r2) => Some (x :: xs, r2)
                | None => None
                end
            | None => None
            end
          else None
      | [] => None
      end
  end
with parse_members (fuel : nat) (s : list ascii)
    : option (list (list ascii * value) * list ascii) :=
  match fuel with
  | O => None
  | S f =>
      match skip_ws s with
      | c :: r =>
          if Ascii.eqb c "}"%char then Some ([], r)
          else if Ascii.eqb c ","%char then
            match parse_string r with
            | Some (k, r1) =>
                match starts_with ":"%char r1 with
                | Some r2 =>
                    match parse_value f r2 with
                    | Some (x, r3) =>
                        match parse_members f r3 with
                        | Some (xs, r4) => Some ((k, x) :: xs, r4)
                        | None => None
                        end
                    | None => None
                    end
                | None => None
                end
            | None => None
            end
          else None
      | [] => None
      end
  end.

(** JSON.parse: one value, surrounded by white space only; [None] is the
    SyntaxError it throws. *)
Definition parse (s : list ascii) : option value :=
  match parse_value (S (length s)) s with
  | Some (v, r) => match skip_ws r with [] => Some v | _ => None end
  | None => None
  end.

End JSON.


(* ------------------------------------------------------------------ *)
(** ** src/types/Event.ts *)

Module EventType.

(** A JS number: a finite decimal, NaN, or an infinity. *)
Inductive number : Type :=
| Num (m : Z) (d : nat)
| NaN
| Infinity (neg : bool).

Record Position : Type := mkPosition { latitude : number; longitude : number }.

Record Event : Type := mkEvent {
  id : string;
  name : string;
  description : string;
  dateTime : string;                     (* ISO string *)
  organizerId : string;
  position : Position;
  imageUrl : option string;              (* imageUrl?: string *)
  volunteersNeeded : number;
  volunteersIds : list string
}.

(** The JSON value of an event object, fields in declaration order. *)
Definition number_json (n : number) : JSON.value :=
  match n with
  | Num m d => JSON.JNum m d
  | _ => JSON.JNull                      (* what JSON.stringify writes for NaN, +-Infinity *)
  end.

Definition jstr (s : string) : JSON.value := JSON.JStr (list_ascii_of_string s).
Definition jkey (s : string) : list ascii := list_ascii_of_string s.

Definition position_json (p : Position) : JSON.value :=
  JSON.JObj [(jkey "latitude", number_json (latitude p));
             (jkey "longitude", number_json (longitude p))].

Definition event_json (e : Event) : JSON.value :=
  JSON.JObj
    ([(jkey "id", jstr (id e));
      (jkey "name", jstr (name e));
      (jkey "description", jstr (description e));
      (jkey "dateTime", jstr (dateTime e));
      (jkey "organizerId", jstr (organizerId e));
      (jkey "position", position_json (position e))]
     ++ match imageUrl e with Some u => [(jkey "imageUrl", jstr u)] | None => [] end
     ++ [(jkey "volunteersNeeded", number_json (volunteersNeeded e));
         (jkey "volunteersIds", JSON.JArr (map jstr (volunteersIds e)))]).

Definition events_json (l : list Event) : JSON.value := JSON.JArr (map event_json l).

(** Reading an event back, field by field, from a JSON object. *)
Definition field (k : string) (fs : list (list ascii * JSON.value)) : option JSON.value :=
  match find (fun kv => bool_decide (fst kv = jkey k)) fs with
  | Some (_, v) => Some v
  | None => None
  end.

Definition as_string (v : JSON.value) : option string :=
  match v with JSON.JStr s => Some (string_of_list_ascii s) | _ => None end.

Definition as_number (v : JSON.value) : option number :=
  match v with JSON.JNum m d => Some (Num m d) | _ => None end.

Fixpoint as_strings (l : list JSON.value) : option (list string) :=
  match l with
  | [] => Some []
  | x :: l' =>
      match as_string x, as_strings l' with
      | Some s, Some ss => Some (s :: ss)
      | _, _ => None
      end
  end.

Definition position_of_json (v : JSON.value) : option Position :=
  match v with
  | JSON.JObj fs =>
      match field "latitude" fs ≫= as_number, field "longitude" fs ≫= as_number with
      | Some la, Some lo => Some (mkPosition la lo)
      | _, _ => None
      end
  | _ => None
  end.

Definition event_of_json (v : JSON.value) : option Event :=
  match v with
  | JSON.JObj fs =>
      match field "id" fs ≫= as_string, field "name" fs ≫= as_string,
            field "description" fs ≫= as_string, field "dateTime" fs ≫= as_string,
            field "organizerId" fs ≫= as_string, field "position" fs ≫= position_of_json,
            field "volunteersNeeded" fs ≫= as_number with
      | Some i, Some n, Some de, Some dt, Some o, Some p, Some vn =>
          let img := field "imageUrl" fs ≫= as_string in
          match field "volunteersIds" fs with
          | Some (JSON.JArr ids) =>
              match as_strings ids with
              | Some ids' => Some (mkEvent i n de dt o p img vn ids')
              | None => None
              end
          | _ => None
          end
      | _, _, _, _, _, _, _ => None
      end
  | _ => None
  end.

Definition events_of_json (v : JSON.value) : option (list Event) :=
  match v with
  | JSON.JArr l => mapM event_of_json l
  | _ => None
  end.

(** The numbers JSON can carry. *)
Definition finite (n : number) : bool :=
  match n with Num _ _ => true | _ => false end.

Definition event_finite (e : Event) : bool :=
  finite (latitude (position e)) && finite (longitude (position e))
  && finite (volunteersNeeded e).

(** The event of the spec's scenario (section 8), with an uploaded image, and
    two more for a list of three. *)
Definition beach_cleanup : Event :=
  mkEvent "1" "Beach Cleanup" "Pick up litter along the shore" "2025-12-01T14:30:00.000Z"
    "u1" (mkPosition (Num 510447 4) (Num (-1140719) 4))
    (Some "https://example.org/beach.jpg") (Num 4 0) [].

Definition tree_planting : Event :=
  mkEvent "2" "Tree Planting" "Plant saplings in the park" "2025-12-06T09:00:00.000Z"
    "u2" (mkPosition (Num 510486 4) (Num (-1140708) 4)) None (Num 12 0) ["u1"; "u3"].

Definition food_drive : Event :=
  mkEvent "3" "Food Drive" "Sort donations at the food bank" "2026-01-10T16:15:00.000Z"
    "u3" (mkPosition (Num 5103 2) (Num (-11406) 2)) None (Num 25 1) [].

Definition sample_events : list Event := [beach_cleanup; tree_planting; food_drive].

End EventType.


(* ------------------------------------------------------------------ *)
(** ** The events map screen: src/pages/EventsMap.tsx *)

Module EventsMap.

(** Observable effects, in the order the screen performs them. *)
Inductive Effect : Type :=
| NetRequest                          (* getEvents(): GET /events is sent *)
| LoaderCall (key : string)           (* getFromNetworkFirst(key, ...) starts *)
| StoreGet (key : string)             (* AsyncStorage.getItem *)
| StoreSet (key : string) (ok : bool) (* AsyncStorage.setItem, resolved or rejected *)
| StoreRemove (keys : list string)    (* AsyncStorage.multiRemove *)
| StaleSignal (key : string)          (* the loader reports stale, cached data *)
| Notify (title msg : string)         (* Alert.alert *)
| SetEvents (v : JSON.value)          (* setEvents *)
| SetIsLoading (b : bool)             (* setIsLoading *)
| ScheduleFit                         (* setTimeout(fitToMarkers, 300) *)
| AuthCleared                         (* authenticationContext?.setValue(undefined) *)
| Navigate (screen : string).         (* navigation.navigate *)

Inductive Error : Type :=
| NetworkFailure (reason : string)
| Unavailable (cause : Error)
| PersistenceFailure (key : string)
| SyntaxError.

(** The state the screen works on: AsyncStorage (key to stored text), whether
    the storage accepts writes, the React state, and the effects so far. *)
Record World : Type := mkWorld {
  store : gmap string (list ascii);
  store_set_ok : bool;
  events : JSON.value;
  isLoading : bool;
  trace : list Effect
}.

(** A state and error monad over [World]. *)
Definition M (A : Type) : Type := World -> (A + Error) * World.

Definition ret {A} (a : A) : M A := fun w => (inl a, w).

Definition bind {A B} (m : M A) (k : A -> M B) : M B :=
  fun w => match m w with
           | (inl a, w') => k a w'
           | (inr e, w') => (inr e, w')
           end.

Definition throw {A} (e : Error) : M A := fun w => (inr e, w).

Notation "x <- m ;; k" := (bind m (fun x => k))
  (at level 100, m at next level, right associativity).

(** try { m } catch (err) { h(err) } *)
Definition try_catch {A} (m : M A) (h : Error -> M A) : M A :=
  fun w => match m w with
           | (inr e, w') => h e w'
           | r => r
           end.

(** try { m } finally { fin }: [fin] runs in every case; its own error wins. *)
Definition try_finally {A} (m : M A) (fin : M unit) : M A :=
  fun w => let '(r, w1) := m w in
           match fin w1 with
           | (inl _, w2) => (r, w2)
           | (inr e, w2) => (inr e, w2)
           end.

Definition emit (e : Effect) : M unit :=
  fun w => (inl tt, mkWorld (store w) (store_set_ok w) (events w) (isLoading w)
                            (trace w ++ [e])).

Definition AsyncStorage_getItem (key : string) : M (option (list ascii)) :=
  _ <- emit (StoreGet key) ;;
  fun w => (inl (store w !! key), w).

Definition AsyncStorage_setItem (key : string) (text : list ascii) : M unit :=
  fun w =>
    let w1 := mkWorld (store w) (store_set_ok w) (events w) (isLoading w)
                      (trace w ++ [StoreSet key (store_set_ok w)]) in
    if store_set_ok w
    then (inl tt, mkWorld (<[key := text]> (store w)) (store_set_ok w) (events w)
                          (isLoading w) (trace w1))
    else (inr (PersistenceFailure key), w1).

Definition AsyncStorage_multiRemove (keys : list string) : M unit :=
  fun w => (inl tt, mkWorld (foldr delete (store w) keys) (store_set_ok w) (events w)
                            (isLoading w) (trace w ++ [StoreRemove keys])).

Definition setEvents (v : JSON.value) : M unit :=
  fun w => (inl tt, mkWorld (store w) (store_set_ok w) v (isLoading w)
                            (trace w ++ [SetEvents v])).

Definition setIsLoading (b : bool) : M unit :=
  fun w => (inl tt, mkWorld (store w) (store_set_ok w) (events w) b
                            (trace w ++ [SetIsLoading b])).

Definition Alert_alert (title msg : string) : M unit := emit (Notify title msg).

(** JSON.parse, throwing a SyntaxError on malformed text. *)
Definition JSON_parse (text : list ascii) : M JSON.value :=
  match JSON.parse text with
  | Some v => ret v
  | None => throw SyntaxError
  end.

(** A settled promise: its value or its rejection. *)
Definition Promise (A : Type) : Type := (A + Error)%type.

(** [getEvents().then(r => r.data)]: evaluating the expression sends the
    request; the promise settles with the response body or the failure. *)
Definition getEvents_data (net : Promise JSON.value) : M (Promise JSON.value) :=
  _ <- emit NetRequest ;; ret net.

(** Modelled from the spec: [setInCache] of services/caching, which is not
    among the sources: serialize the value with JSON.stringify and store it
    under the key; a rejected write rejects. *)
Definition setInCache (key : string) (value : JSON.value) : M unit :=
  AsyncStorage_setItem key (JSON.stringify value).

(** Modelled from the spec: [getFromNetworkFirst] of services/caching, which
    is not among the sources (spec section 4.1).  It awaits the request; on
    success it persists the value under [key], best effort, and returns it;
    on failure it reads [key]: a cached value is deserialized and returned
    with a stale-data signal, and an empty slot fails with [Unavailable]
    wrapping the network failure.  As at its call site, the request is a
    promise the caller has already created. *)
Definition getFromNetworkFirst (key : string) (request : Promise JSON.value) : M JSON.value :=
  _ <- emit (LoaderCall key) ;;
  match request with
  | inl fresh =>
      _ <- try_catch (setInCache key fresh) (fun _ => ret tt) ;;
      ret fresh
  | inr err =>
      cached <- AsyncStorage_getItem key ;;
      match cached with
      | Some text =>
          v <- JSON_parse text ;;
          _ <- emit (StaleSignal key) ;;
          ret v
      | None => throw (Unavailable err)
      end
  end.

(** JavaScript truthiness of the string returned by getItem. *)
Definition truthy (text : list ascii) : bool :=
  match text with [] => false | _ => true end.

(** [fetchAndCacheEvents] (EventsMap.tsx, lines 44-60).  [net] is how the
    GET /events request settles. *)
Definition fetchAndCacheEvents (net : Promise JSON.value) : M unit :=
  try_finally
    (try_catch
       (_ <- setIsLoading true ;;
        request <- getEvents_data net ;;
        response <- getFromNetworkFirst "events_future" request ;;
        (* Cache the response again under a generic key (optional) *)
        _ <- setInCache "events_future" response ;;
        setEvents response)
       (fun _ =>
          _ <- Alert_alert "Offline" "Loaded events from cache." ;;
          cached <- AsyncStorage_getItem "events_future" ;;
          match cached with
          | Some text =>
              if truthy text then (v <- JSON_parse text ;; setEvents v) else ret tt
          | None => ret tt
          end))
    (_ <- setIsLoading false ;;
     (* Let the map settle then fit *)
     emit ScheduleFit).

(** [handleLogout] (EventsMap.tsx, lines 73-78). *)
Definition handleLogout : M unit :=
  _ <- AsyncStorage_multiRemove ["userInfo"; "accessToken"] ;;
  _ <- emit AuthCleared ;;
  emit (Navigate "Login").

(** The part of the trace a run adds. *)
Definition run_effects {A} (m : M A) (w : World) : list Effect :=
  drop (length (trace w)) (trace (snd (m w))).

Definition is_net_request (e : Effect) : bool :=
  match e with NetRequest => true | _ => false end.

Definition effect_key (e : Effect) : option string :=
  match e with
  | StoreGet k | StoreSet k _ | LoaderCall k | StaleSignal k => Some k
  | _ => None
  end.

(** What the catch block of [fetchAndCacheEvents] leaves on screen: the cached
    text when it is truthy and parses, the current events otherwise. *)
Definition cached_or (cached : option (list ascii)) (fallback : JSON.value) : JSON.value :=
  match cached with
  | Some text =>
      if truthy text then match JSON.parse text with Some v => v | None => fallback end
      else fallback
  | None => fallback
  end.

(** Sample worlds: a fresh install, and one whose storage holds [v] under
    "events_future" and accepts writes or not. *)
Definition empty_world : World := mkWorld ∅ true (JSON.JArr []) false [].

Definition cached_world (v : JSON.value) (ok : bool) : World :=
  mkWorld {[ "events_future" := JSON.stringify v ]} ok (JSON.JArr []) false [].

End EventsMap.


(* ------------------------------------------------------------------ *)
(** ** The create-event screen (src/unnamed/part_000) *)

Module CreateEvent.
Import EventType.
Local Open Scope Z_scope.

(** String.prototype.trim on the ASCII range: white space and line
    terminators (tab, LF, VT, FF, CR, space, no-break space). *)
Definition js_ws (c : ascii) : bool :=
  let n := nat_of_ascii c in
  ((9 <=? n)%nat && (n <=? 13)%nat) || (n =? 32)%nat || (n =? 160)%nat.

Fixpoint drop_ws (l : list ascii) : list ascii :=
  match l with
  | c :: r => if js_ws c then drop_ws r else l
  | [] => []
  end.

Definition trim_list (l : list ascii) : list ascii := rev (drop_ws (rev (drop_ws l))).

Definition trim (s : string) : string :=
  string_of_list_ascii (trim_list (list_ascii_of_string s)).

(** String.prototype.split with a one-character separator. *)
Fixpoint split_on (sep : ascii) (l : list ascii) : list (list ascii) :=
  match l with
  | [] => [[]]
  | c :: r =>
      if Ascii.eqb c sep then [] :: split_on sep r
      else match split_on sep r with
           | w :: ws => (c :: w) :: ws
           | [] => [[c]]
           end
  end.

Definition split (sep : ascii) (s : string) : list string :=
  map string_of_list_ascii (split_on sep (list_ascii_of_string s)).

(** JS truthiness of numbers, and the tests the form uses. *)
Definition truthy_number (n : number) : bool :=
  match n with Num m _ => negb (m =? 0) | NaN => false | Infinity _ => true end.

Definition isNaN (n : number) : bool := match n with NaN => true | _ => false end.

Definition isFinite (n : number) : bool := match n with Num _ _ => true | _ => false end.

Definition gt0 (n : number) : bool :=
  match n with Num m _ => 0 <? m | Infinity false => true | _ => false end.

(** Time values (ms since the epoch, UTC) and the ECMAScript date
    operations the form uses.  [None] is NaN. *)
Definition msPerDay : Z := 86400000.

Definition TimeClip (t : Z) : option Z :=
  if Z.abs t <=? 8640000000000000 then Some t else None.

Definition ToIntegerOrInfinity (n : number) : option Z :=
  match n with Num m d => Some (Z.quot m (10 ^ Z.of_nat d)) | _ => None end.

(** MakeTime, in integer arithmetic: it agrees with the runtime's IEEE
    arithmetic while every intermediate value stays below 2^53. *)
Definition MakeTime (h m s ms : number) : option Z :=
  match ToIntegerOrInfinity h, ToIntegerOrInfinity m,
        ToIntegerOrInfinity s, ToIntegerOrInfinity ms with
  | Some h', Some m', Some s', Some ms' => Some (h' * 3600000 + m' * 60000 + s' * 1000 + ms')
  | _, _, _, _ => None
  end.

(** Days since the epoch to a proleptic Gregorian (year, month, day). *)
Definition civil_from_days (days : Z) : Z * Z * Z :=
  let z := days + 719468 in
  let era := z / 146097 in
  let doe := z - era * 146097 in
  let yoe := (doe - doe / 1460 + doe / 36524 - doe / 146096) / 365 in
  let y := yoe + era * 400 in
  let doy := doe - (365 * yoe + yoe / 4 - yoe / 100) in
  let mp := (5 * doy + 2) / 153 in
  let d := doy - (153 * mp + 2) / 5 + 1 in
  let m := if mp <? 10 then mp + 3 else mp - 9 in
  (if m <=? 2 then y + 1 else y, m, d).

Definition year_string (y : Z) : list ascii :=
  if (0 <=? y) && (y <=? 9999) then JSON.pad 4 y
  else (if y <? 0 then "-"%char else "+"%char) :: JSON.pad 6 (Z.abs y).

(** Date.prototype.toISOString: [None] is the RangeError thrown on NaN. *)
Definition toISOString (tv : option Z) : option string :=
  match tv with
  | None => None
  | Some t =>
      let day := t / msPerDay in
      let ms := t mod msPerDay in
      let '(y, mo, d) := civil_from_days day in
      Some (string_of_list_ascii
        (year_string y ++
         "-"%char :: JSON.pad 2 mo ++ "-"%char :: JSON.pad 2 d ++
         "T"%char :: JSON.pad 2 (ms / 3600000) ++
         ":"%char :: JSON.pad 2 (ms / 60000 mod 60) ++
         ":"%char :: JSON.pad 2 (ms / 1000 mod 60) ++
         "."%char :: JSON.pad 3 (ms mod 1000) ++ ["Z"%char]))
  end.

(** An ISO-8601 date-time in the format toISOString writes:
    YYYY-MM-DDTHH:mm:ss.sssZ, or a signed six-digit year. *)
Definition digits_range (l : list ascii) (lo hi : Z) : bool :=
  match mapM JSON.char_digit l with
  | Some ds => (lo <=? JSON.digits_val 0 ds) && (JSON.digits_val 0 ds <=? hi)
  | None => false
  end.

Definition all_digits (l : list ascii) : bool :=
  match mapM JSON.char_digit l with Some _ => true | None => false end.

Definition iso_tail (r : list ascii) : bool :=
  match r with
  | [c1; m1; m2; c2; d1; d2; cT; h1; h2; c3; i1; i2; c4; s1; s2; c5; f1; f2; f3; cZ] =>
      Ascii.eqb c1 "-"%char && digits_range [m1; m2] 1 12 &&
      Ascii.eqb c2 "-"%char && digits_range [d1; d2] 1 31 &&
      Ascii.eqb cT "T"%char && digits_range [h1; h2] 0 23 &&
      Ascii.eqb c3 ":"%char && digits_range [i1; i2] 0 59 &&
      Ascii.eqb c4 ":"%char && digits_range [s1; s2] 0 59 &&
      Ascii.eqb c5 "."%char && digits_range [f1; f2; f3] 0 999 &&
      Ascii.eqb cZ "Z"%char
  | _ => false
  end.

Definition is_iso_datetime (s : string) : bool :=
  let l := list_ascii_of_string s in
  match l with
  | c :: r =>
      if Ascii.eqb c "+"%char || Ascii.eqb c "-"%char
      then all_digits (take 6 r) && (length r =? 26)%nat && iso_tail (drop 6 r)
      else all_digits (take 4 l) && (length l =? 24)%nat && iso_tail (drop 4 l)
  | [] => false
  end.

(** The form's state: the text inputs and the uploaded image URL. *)
Record FormState : Type := mkForm {
  name : string;
  description : string;
  date : string;                         (* e.g. 2025-12-01 *)
  time : string;                         (* e.g. 14:30 *)
  volunteersNeeded : string;
  lat : string;
  lng : string;
  imageRemoteUrl : option string
}.

(** What a press of Save does: the render threw (the [isoDateTime] memo
    raised a RangeError, so the screen has no Save handler), the
    validation alert, or createEvent called with this payload. *)
Inductive SaveOutcome : Type :=
| RenderThrew
| ValidationAlert
| Submitted (payload : Event).

Definition truthy_string (s : string) : bool := negb (String.eqb s "").

Section Form.

(** The JS runtime: Number(string), the date-string parser behind
    [new Date(string)], and the local time zone offsets (LocalTime and UTC
    of ECMAScript). *)
Variable Number : string -> number.
Variable Date_parse : string -> option Z.
Variable offset_of_utc : Z -> Z.
Variable offset_of_local : Z -> Z.

Definition new_Date (s : string) : option Z :=
  match Date_parse s with Some t => TimeClip t | None => None end.

(** Date.prototype.setHours(hour, min, sec, ms) in local time. *)
Definition setHours (tv : option Z) (h m s ms : number) : option Z :=
  match tv with
  | None => None
  | Some t =>
      let local := t + offset_of_utc t in
      match MakeTime h m s ms with
      | Some tm =>
          let date := local / msPerDay * msPerDay + tm in
          TimeClip (date - offset_of_local date)
      | None => None
      end
  end.

(** [x || 0] for a destructured, possibly undefined, number. *)
Definition or0 (x : option number) : number :=
  match x with
  | Some n => if truthy_number n then n else Num 0 0
  | None => Num 0 0
  end.

(** [isoDateTime] (useMemo, lines 37-44); [None] is the thrown RangeError. *)
Definition isoDateTime (date time : string) : option string :=
  if negb (truthy_string date) || negb (truthy_string time) then Some ""
  else
    let parts := map Number (split ":"%char time) in
    let d := new_Date date in
    let d' := setHours d (or0 (nth_error parts 0)) (or0 (nth_error parts 1)) (Num 0 0) (Num 0 0) in
    toISOString d'.

(** [numericVolunteers] (lines 46-49). *)
Definition numericVolunteers (volunteersNeeded : string) : number :=
  let n := Number volunteersNeeded in
  if isFinite n then n else NaN.

(** [canSave] (lines 51-61), given the value of the [isoDateTime] memo. *)
Definition canSave (st : FormState) (iso : string) : bool :=
  (0 <? String.length (trim (name st)))%nat &&
  (0 <? String.length (trim (description st)))%nat &&
  (0 <? String.length iso)%nat &&
  negb (isNaN (numericVolunteers (volunteersNeeded st))) &&
  gt0 (numericVolunteers (volunteersNeeded st)) &&
  truthy_string (lat st) && truthy_string (lng st) &&
  match imageRemoteUrl st with Some u => truthy_string u | None => false end.

(** [handleSave] (lines 159-192): [uuid] is the value of uuidv4() and
    [auth_id] the id of the signed-in user, if any. *)
Definition handleSave (st : FormState) (uuid : string) (auth_id : option string) : SaveOutcome :=
  match isoDateTime (date st) (time st) with
  | None => RenderThrew
  | Some iso =>
      if negb (canSave st iso) then ValidationAlert
      else
        Submitted
          (mkEvent uuid (trim (name st)) (trim (description st)) iso
             (match auth_id with Some i => i | None => "unknown" end)
             (mkPosition (Number (lat st)) (Number (lng st)))
             (imageRemoteUrl st)
             (numericVolunteers (volunteersNeeded st))
             [])
  end.

End Form.

(** A sample runtime.  Number on decimal numerals (blank text is 0, other
    text NaN), and the date-only form YYYY-MM-DD of the date parser, read as
    UTC midnight as ECMAScript specifies. *)
Definition decimal_Number (s : string) : number :=
  match trim_list (list_ascii_of_string s) with
  | [] => Num 0 0
  | l => match JSON.parse_number l with
         | Some (JSON.JNum m d, []) => Num m d
         | _ => NaN
         end
  end.

(** Proleptic Gregorian (year, month, day) to days since the epoch. *)
Definition days_from_civil (y m d : Z) : Z :=
  let y' := if m <=? 2 then y - 1 else y in
  let era := y' / 400 in
  let yoe := y' - era * 400 in
  let mp := if 2 <? m then m - 3 else m + 9 in
  let doy := (153 * mp + 2) / 5 + d - 1 in
  let doe := yoe * 365 + yoe / 4 - yoe / 100 + doy in
  era * 146097 + doe - 719468.

Definition date_only_parse (s : string) : option Z :=
  match list_ascii_of_string s with
  | [y1; y2; y3; y4; c1; m1; m2; c2; d1; d2] =>
      if Ascii.eqb c1 "-"%char && Ascii.eqb c2 "-"%char then
        match mapM JSON.char_digit [y1; y2; y3; y4], mapM JSON.char_digit [m1; m2],
              mapM JSON.char_digit [d1; d2] with
        | Some ys, Some ms, Some ds =>
            Some (days_from_civil (JSON.digits_val 0 ys) (JSON.digits_val 0 ms)
                                  (JSON.digits_val 0 ds) * msPerDay)
        | _, _, _ => None
        end
      else None
  | _ => None
  end.

(** A filled-in form, as the scenario of the spec would enter it. *)
Definition sample_form : FormState :=
  mkForm " Beach Cleanup " "Pick up litter along the shore" "2025-12-01" "14:30" "4"
    "51.0447" "-114.0719" (Some "https://example.org/beach.jpg").

(** Month and day that [civil_from_days] computes from the day of the
    400-year era, and the table check over a whole era. *)
Definition md_of_doe (doe : Z) : Z * Z :=
  let yoe := (doe - doe / 1460 + doe / 36524 - doe / 146096) / 365 in
  let doy := doe - (365 * yoe + yoe / 4 - yoe / 100) in
  let mp := (5 * doy + 2) / 153 in
  let d := doy - (153 * mp + 2) / 5 + 1 in
  let m := if mp <? 10 then mp + 3 else mp - 9 in
  (m, d).

Definition md_ok (doe : Z) : bool :=
  let '(m, d) := md_of_doe doe in (1 <=? m) && (m <=? 12) && (1 <=? d) && (d <=? 31).

Fixpoint check_from (fuel : nat) (doe : Z) : bool :=
  match fuel with
  | O => true
  | S f => md_ok doe && check_from f (doe + 1)
  end.

End CreateEvent.

(* ------------------------------------------------------------------ *)
(** ** Date.parse on the date time string format *)

Module JSDate.
Import CreateEvent.
Local Open Scope Z_scope.

(** [k] decimal digits at the front of [l]. *)
Definition read_digits (k : nat) (l : list ascii) : option (Z * list ascii) :=
  if (k <=? length l)%nat then
    match mapM JSON.char_digit (take k l) with
    | Some ds => Some (JSON.digits_val 0 ds, drop k l)
    | None => None
    end
  else None.

Definition read_char (c : ascii) (l : list ascii) : option (list ascii) :=
  match l with
  | c' :: r => if Ascii.eqb c' c then Some r else None
  | [] => None
  end.

(** YYYY, or an expanded year: a sign and six digits; -000000 is invalid. *)
Definition read_year (l : list ascii) : option (Z * list ascii) :=
  match l with
  | c :: r =>
      if Ascii.eqb c "+"%char then read_digits 6 r
      else if Ascii.eqb c "-"%char then
        match read_digits 6 r with
        | Some (y, r') => if y =? 0 then None else Some (- y, r')
        | None => None
        end
      else read_digits 4 l
  | [] => None
  end.

(** MakeDay (year, month from 0, date) and MakeDate of ECMAScript. *)
Definition MakeDay (year month date : Z) : Z :=
  days_from_civil (year + month / 12) (month mod 12 + 1) 1 + date - 1.

Definition MakeDate (day time : Z) : Z := day * msPerDay + time.

(** The two forms of the ECMAScript date time string format the program
    handles: the date-only form YYYY-MM-DD, read as UTC midnight (the date
    input of the form), and the full form YYYY-MM-DDTHH:mm:ss.sssZ that
    toISOString writes (the stored events).  Other strings give NaN. *)
Definition Date_parse_iso (s : string) : option Z :=
  let l := list_ascii_of_string s in
  match read_year l with None => None | Some (y, r1) =>
  match read_char "-"%char r1 with None => None | Some r2 =>
  match read_digits 2 r2 with None => None | Some (mo, r3) =>
  match read_char "-"%char r3 with None => None | Some r4 =>
  match read_digits 2 r4 with None => None | Some (d, r5) =>
  if negb ((1 <=? mo) && (mo <=? 12) && (1 <=? d) && (d <=? 31)) then None else
  match r5 with
  | [] => Some (MakeDate (MakeDay y (mo - 1) d) 0)
  | _ =>
    match read_char "T"%char r5 with None => None | Some r6 =>
    match read_digits 2 r6 with None => None | Some (h, r7) =>
    match read_char ":"%char r7 with None => None | Some r8 =>
    match read_digits 2 r8 with None => None | Some (mi, r9) =>
    match read_char ":"%char r9 with None => None | Some r10 =>
    match read_digits 2 r10 with None => None | Some (sec, r11) =>
    match read_char "."%char r11 with None => None | Some r12 =>
    match read_digits 3 r12 with None => None | Some (ms, r13) =>
    match r13 with
    | ["Z"%char] =>
        if (h <=? 24) && (mi <=? 59) && (sec <=? 59) &&
           (negb (h =? 24) || ((mi =? 0) && (sec =? 0) && (ms =? 0)))
        then Some (MakeDate (MakeDay y (mo - 1) d)
                            (h * 3600000 + mi * 60000 + sec * 1000 + ms))
        else None
    | _ => None
    end end end end end end end end end
  end end end end end end.

(** The parts of the era computation of [civil_from_days], and the table
    check that the year of the era and the day of the year stay in range. *)
Definition yoe_doy (doe : Z) : Z * Z :=
  let yoe := (doe - doe / 1460 + doe / 36524 - doe / 146096) / 365 in
  (yoe, doe - (365 * yoe + yoe / 4 - yoe / 100)).

Definition yoe_doy_ok (doe : Z) : bool :=
  let '(yoe, doy) := yoe_doy doe in
  (0 <=? yoe) && (yoe <=? 399) && (0 <=? doy) && (doy <=? 365).

Fixpoint check_yoe_from (fuel : nat) (doe : Z) : bool :=
  match fuel with
  | O => true
  | S f => yoe_doy_ok doe && check_yoe_from f (doe + 1)
  end.

End JSDate.


(* ------------------------------------------------------------------ *)
(** ** The list of upcoming events on the map (EventsMap.tsx) *)

Module EventsMapView.
Import EventType.

Section View.

(** The date-string parser behind [new Date(string)]. *)
Variable Date_parse : string -> option Z.

(** [futureEvents] (useMemo, lines 25-28): [events.filter(e => new
    Date(e.dateTime) > now)]; an invalid date compares false. *)
Definition futureEvents (now : Z) (events : list Event) : list Event :=
  List.filter
    (fun e => match CreateEvent.new_Date Date_parse (dateTime e) with
              | Some t => (now <? t)%Z
              | None => false
              end)
    events.

End View.

End EventsMapView.


(* ------------------------------------------------------------------ *)
(** ** Image picking, upload, location and sizes on the create-event screen *)

Module CreateEventMedia.
Import EventType CreateEvent.
Local Open Scope Z_scope.

(** An asset of the image picker result, and the result. *)
Record Asset : Type := mkAsset {
  uri : string;
  base64 : option string;
  fileName : option string;
  fileSize : option number
}.

Record PickerResult : Type := mkPickerResult {
  canceled : bool;
  assets : option (list Asset)
}.

(** The screen state: the form, and the picked image. *)
Record ScreenState : Type := mkScreen {
  form : FormState;
  imageUri : option string;
  imageBase64 : option string;
  imageName : option string;
  imageSize : option number;
  imageUploading : bool
}.

(** What the handlers do besides setting state. *)
Inductive MediaEffect : Type :=
| MAlert (title msg : string)          (* Alert.alert *)
| MUpload (payload : string)           (* uploadImage(imageBase64) *)
| MSetUploading (b : bool).            (* setImageUploading *)

Definition set_imageRemoteUrl (st : FormState) (u : option string) : FormState :=
  mkForm (name st) (description st) (date st) (time st) (volunteersNeeded st)
    (lat st) (lng st) u.

Definition set_lat_lng (st : FormState) (la lo : string) : FormState :=
  mkForm (name st) (description st) (date st) (time st) (volunteersNeeded st)
    la lo (imageRemoteUrl st).

Definition set_remote (s : ScreenState) (u : option string) : ScreenState :=
  mkScreen (set_imageRemoteUrl (form s) u) (imageUri s) (imageBase64 s) (imageName s)
    (imageSize s) (imageUploading s).

(** [a || b] where [a] is a possibly undefined string. *)
Definition or_str (a : option string) (b : string) : string :=
  match a with
  | Some s => if truthy_string s then s else b
  | None => b
  end.

(** [uri.split('/').pop()]: split always returns at least one piece. *)
Definition last_piece (s : string) : string := List.last (split "/"%char s) "".

(** The picker launch settles with a result or rejects with an error whose
    message may be undefined. *)
Definition Launch : Type := (PickerResult + option string)%type.

(** [pickFromLibrary] (lines 85-104), given the permission status and how
    launchImageLibraryAsync settles. *)
Definition pickFromLibrary (status : string) (launch : Launch) (s : ScreenState)
  : ScreenState * list MediaEffect :=
  if negb (String.eqb status "granted")
  then (s, [MAlert "Image picker" "Permission for image library was denied"])
  else
    match launch with
    | inr msg => (s, [MAlert "Image picker" (default "Could not pick an image." msg)])
    | inl result =>
        match canceled result, assets result with
        | false, Some (a :: _) =>
            (mkScreen (set_imageRemoteUrl (form s) None) (Some (uri a)) (base64 a)
               (Some (or_str (fileName a) (or_str (Some (last_piece (uri a))) "image.jpg")))
               (fileSize a) (imageUploading s), [])
        | _, _ => (s, [])
        end
    end.

(** [takePhoto] (lines 106-125). *)
Definition takePhoto (status : string) (launch : Launch) (s : ScreenState)
  : ScreenState * list MediaEffect :=
  if negb (String.eqb status "granted")
  then (s, [MAlert "Camera" "Permission for camera was denied"])
  else
    match launch with
    | inr msg => (s, [MAlert "Camera" (default "Could not take a photo." msg)])
    | inl result =>
        match canceled result, assets result with
        | false, Some (a :: _) =>
            (mkScreen (set_imageRemoteUrl (form s) None) (Some (uri a)) (base64 a)
               (Some (or_str (fileName a) "camera.jpg"))
               (fileSize a) (imageUploading s), [])
        | _, _ => (s, [])
        end
    end.

(** How uploadImage settles: [resp?.data?.data?.url], or a rejection with
    a possibly undefined message. *)
Definition UploadResult : Type := (option string + option string)%type.

(** [uploadPickedImage] (lines 127-148). *)
Definition uploadPickedImage (upload : string -> UploadResult) (s : ScreenState)
  : ScreenState * list MediaEffect :=
  let early := (s, [MAlert "Upload" "Please pick an image first."]) in
  match imageBase64 s with
  | Some b64 =>
      if negb (truthy_string b64) then early
      else
        let s_done (u : option string) :=
          mkScreen (set_imageRemoteUrl (form s) u) (imageUri s) (imageBase64 s)
            (imageName s) (imageSize s) false in
        let failed := [MAlert "Upload failed" "Upload did not return a URL."] in
        let before := [MSetUploading true; MUpload b64] in
        match upload b64 with
        | inl (Some u) =>
            if truthy_string u
            then (s_done (Some u),
                  before ++ [MAlert "Upload" "Image uploaded successfully!"; MSetUploading false])
            else (s_done (imageRemoteUrl (form s)), before ++ failed ++ [MSetUploading false])
        | inl None => (s_done (imageRemoteUrl (form s)), before ++ failed ++ [MSetUploading false])
        | inr msg =>
            (s_done (imageRemoteUrl (form s)),
             before ++ [MAlert "Upload failed" (default "Could not upload image." msg);
                        MSetUploading false])
        end
  | None => early
  end.

Section Runtime.

(** Number::toString, for the values toFixed hands to it. *)
Variable Number_toString : number -> string.

(** Number.prototype.toFixed(f) (ECMAScript 21.1.3.3).  Below 10^21 the
    digits are those of n, the integer nearest to |x| * 10^f (the larger
    on a tie), laid out as an integer part and f fraction digits, which is
    what [JSON.print_number n f] writes for n >= 0. *)
Definition toFixed (f : nat) (x : number) : string :=
  match x with
  | NaN => "NaN"
  | Infinity false => "Infinity"
  | Infinity true => "-Infinity"
  | Num m d =>
      let s := if m <? 0 then ["-"%char] else [] in
      let a := Z.abs m in
      if 10 ^ 21 * 10 ^ Z.of_nat d <=? a
      then string_of_list_ascii s ++ Number_toString (Num a d)
      else
        let n := (2 * a * 10 ^ Z.of_nat f + 10 ^ Z.of_nat d) / (2 * 10 ^ Z.of_nat d) in
        string_of_list_ascii (s ++ JSON.print_number n f)
  end.

(** [ensureLocation] (lines 74-83), given the permission status and how
    getCurrentPositionAsync settles ([None] is a rejection).  The boolean
    tells whether the returned promise resolves. *)
Definition ensureLocation (status : string) (loc : option (number * number)) (st : FormState)
  : FormState * list MediaEffect * bool :=
  if negb (String.eqb status "granted")
  then (st, [MAlert "Location" "Permission denied. You can still enter coordinates manually."], true)
  else
    match loc with
    | Some (latitude, longitude) =>
        (set_lat_lng st (toFixed 6 latitude) (toFixed 6 longitude), [], true)
    | None => (st, [], false)
    end.

(** [x < c] for a number and an integer constant. *)
Definition num_lt (x : number) (c : Z) : bool :=
  match x with
  | Num m d => m <? c * 10 ^ Z.of_nat d
  | NaN => false
  | Infinity neg => neg
  end.

(** [x / 1024], exactly: 1/1024 = 9765625 * 10^-10. *)
Definition div1024 (x : number) : number :=
  match x with
  | Num m d => Num (m * 9765625) (d + 10)
  | _ => x
  end.

(** [formatBytes] (lines 150-157); [None] is undefined. *)
Definition formatBytes (bytes : option number) : string :=
  let truthy_bytes := match bytes with Some n => truthy_number n | None => false end in
  let is_zero := match bytes with Some (Num m _) => m =? 0 | _ => false end in
  if negb truthy_bytes && negb is_zero then ""
  else
    match bytes with
    | None => ""
    | Some b =>
        if num_lt b 1024 then Number_toString b ++ " B"
        else
          let kb := div1024 b in
          if num_lt kb 1024 then toFixed 1 kb ++ " KB"
          else
            let mb := div1024 kb in
            toFixed 1 mb ++ " MB"
    end.

End Runtime.

End CreateEventMedia.


(* ================================================================== *)
(** * Proofs *)

(** ** JSON.parse inverts JSON.stringify *)

Module JSONFacts.
Import JSON.
Local Open Scope Z_scope.

(** No digit starts what may follow a value. *)
Definition no_digit_head (r : list ascii) : Prop :=
  match r with [] => True | c :: _ => char_digit c = None end.

Lemma digit_cases (n : Z) : 0 <= n < 10 -> In n [0; 1; 2; 3; 4; 5; 6; 7; 8; 9].
Proof. intros H. cbn. lia. Qed.

Lemma char_digit_digit_char (n : Z) :
  0 <= n < 10 -> char_digit (digit_char n) = Some n.
Proof.
  intros H%digit_cases.
  repeat destruct H as [<- | H]; [reflexivity .. | contradiction].
Qed.

Lemma digit_char_not_special (n : Z) :
  0 <= n < 10 ->
  Ascii.eqb (digit_char n) "-"%char = false /\ is_ws (digit_char n) = false /\
  Ascii.eqb (digit_char n) "]"%char = false /\ Ascii.eqb (digit_char n) "}"%char = false /\
  (forall f r, parse_value (S f) (digit_char n :: r) = parse_number (digit_char n :: r)).
Proof.
  intros H%digit_cases.
  repeat destruct H as [<- | H]; [repeat split; intros; reflexivity .. | contradiction].
Qed.

Lemma digits_val_app (acc : Z) (l1 l2 : list Z) :
  digits_val acc (l1 ++ l2) = digits_val (digits_val acc l1) l2.
Proof. revert acc; induction l1 as [|d l1 IH]; intros acc; simpl; auto. Qed.

Lemma pad_digits_length (k : nat) (v : Z) : length (pad_digits k v) = k.
Proof.
  revert v; induction k as [|k IH]; intros v; simpl; [reflexivity|].
  rewrite length_app, IH; simpl; lia.
Qed.

Lemma pad_digits_range (k : nat) (v : Z) : Forall (fun d => 0 <= d < 10) (pad_digits k v).
Proof.
  revert v; induction k as [|k IH]; intros v; simpl; [constructor|].
  apply Forall_app; split; [apply IH|].
  constructor; [apply Z.mod_pos_bound; lia | constructor].
Qed.

Lemma pad_digits_val (k : nat) (acc v : Z) :
  digits_val acc (pad_digits k v) = acc * 10 ^ Z.of_nat k + v mod 10 ^ Z.of_nat k.
Proof.
  revert acc v; induction k as [|k IH]; intros acc v.
  - simpl. rewrite Z.mod_1_r; lia.
  - cbn [pad_digits]. rewrite digits_val_app, IH. simpl digits_val.
    rewrite Nat2Z.inj_succ, Z.pow_succ_r by lia.
    assert (Hp : 0 < 10 ^ Z.of_nat k) by (apply Z.pow_pos_nonneg; lia).
    rewrite (Z.rem_mul_r v 10 (10 ^ Z.of_nat k)) by lia.
    lia.
Qed.

Lemma ndig_fuel_spec (fuel : nat) (v : Z) :
  0 <= v -> (Z.to_nat v <= fuel)%nat -> v < 10 ^ Z.of_nat (ndig_fuel fuel v).
Proof.
  revert v; induction fuel as [|f IH]; intros v Hv Hf.
  - simpl. lia.
  - simpl. destruct (Z.ltb_spec v 10) as [Hlt | Hge]; [simpl; lia|].
    assert (Hq : 0 <= v / 10) by (apply Z.div_pos; lia).
    assert (Hqlt : v / 10 < v) by (apply Z.div_lt; lia).
    assert (Hf' : (Z.to_nat (v / 10) <= f)%nat) by lia.
    specialize (IH (v / 10) Hq Hf').
    rewrite Nat2Z.inj_succ, Z.pow_succ_r by lia.
    pose proof (Z.div_mod v 10) as Hdm.
    pose proof (Z.mod_pos_bound v 10) as Hmb.
    lia.
Qed.

Lemma ndig_spec (v : Z) : 0 <= v -> v < 10 ^ Z.of_nat (ndig v).
Proof. intros Hv. apply ndig_fuel_spec; lia. Qed.

Lemma ndig_pos (v : Z) : (1 <= ndig v)%nat.
Proof.
  unfold ndig. generalize (Z.to_nat v) as fuel. intros fuel.
  revert v; induction fuel as [|f IH]; intros v; simpl; [lia|].
  destruct (v <? 10); lia.
Qed.

Lemma span_digits_app (ds : list Z) (rest : list ascii) :
  Forall (fun d => 0 <= d < 10) ds -> no_digit_head rest ->
  span_digits (map digit_char ds ++ rest) = (ds, rest).
Proof.
  intros Hds Hr. induction Hds as [|d ds Hd Hds IH]; cbn [map app].
  - destruct rest as [|c r]; [reflexivity|]. cbn [no_digit_head] in Hr.
    cbn [span_digits]. rewrite Hr. reflexivity.
  - cbn [span_digits]. rewrite char_digit_digit_char by exact Hd. rewrite IH. reflexivity.
Qed.

Lemma delim_no_digit (rest : list ascii) : delim rest -> no_digit_head rest.
Proof. destruct rest as [|c r]; simpl; [auto|]. intros [-> | [-> | ->]]; reflexivity. Qed.

Lemma delim_not_dot (rest : list ascii) :
  delim rest ->
  match rest with [] => True | c :: _ => Ascii.eqb c "."%char = false end.
Proof. destruct rest as [|c r]; simpl; [auto|]. intros [-> | [-> | ->]]; reflexivity. Qed.

Lemma parse_number_print (m : Z) (d : nat) (rest : list ascii) :
  delim rest -> parse_number (print_number m d ++ rest) = Some (JNum m d, rest).
Proof.
  intros Hr. unfold print_number. rewrite <- !app_assoc.
  set (a := Z.abs m / 10 ^ Z.of_nat d).
  set (f := Z.abs m mod 10 ^ Z.of_nat d).
  assert (Hp : 0 < 10 ^ Z.of_nat d) by (apply Z.pow_pos_nonneg; lia).
  assert (Ha : 0 <= a) by (apply Z.div_pos; lia).
  assert (Hf : 0 <= f < 10 ^ Z.of_nat d) by (apply Z.mod_pos_bound; lia).
  assert (Hm : Z.abs m = 10 ^ Z.of_nat d * a + f) by (apply Z.div_mod; lia).
  pose proof (ndig_pos a) as Hnd.
  destruct (pad_digits (ndig a) a) as [|n0 ds] eqn:Eip.
  { pose proof (pad_digits_length (ndig a) a) as Hl. rewrite Eip in Hl. simpl in Hl. lia. }
  assert (Hrange : Forall (fun d => 0 <= d < 10) (n0 :: ds))
    by (rewrite <- Eip; apply pad_digits_range).
  assert (Hval : digits_val 0 (n0 :: ds) = a).
  { rewrite <- Eip, pad_digits_val. pose proof (ndig_spec a Ha).
    rewrite Z.mod_small by lia. lia. }
  (* the digits of the integer part, then the fraction *)
  set (tailf := match d with O => [] | S _ => "."%char :: pad d f end).
  assert (Hspan : span_digits (pad (ndig a) a ++ tailf ++ rest) = (n0 :: ds, tailf ++ rest)).
  { unfold pad. rewrite Eip. apply span_digits_app; [exact Hrange|].
    subst tailf. destruct d; simpl; [apply delim_no_digit; exact Hr | reflexivity]. }
  assert (Hfrac :
    match tailf ++ rest with
    | c :: r =>
        if Ascii.eqb c "."%char then
          match span_digits r with ([], _) => None | res => Some res end
        else Some ([], tailf ++ rest)
    | [] => Some ([], [])
    end = Some (pad_digits d f, rest)).
  { subst tailf. destruct d as [|d'].
    - simpl. pose proof (delim_not_dot rest Hr) as Hd.
      destruct rest as [|c r]; [reflexivity|]. rewrite Hd. reflexivity.
    - cbn [app]. change (Ascii.eqb "."%char "."%char) with true. cbv iota.
      unfold pad. rewrite span_digits_app.
      + pose proof (pad_digits_length (S d') f) as Hl.
        destruct (pad_digits (S d') f); [simpl in Hl; lia | reflexivity].
      + apply pad_digits_range.
      + apply delim_no_digit; exact Hr. }
  assert (Hmag : digits_val (digits_val 0 (n0 :: ds)) (pad_digits d f) = Z.abs m).
  { rewrite Hval, pad_digits_val, (Z.mod_small f) by lia. lia. }
  destruct (Z.ltb_spec m 0) as [Hneg | Hnn].
  - cbn [app]. unfold parse_number. change (Ascii.eqb "-"%char "-"%char) with true.
    cbv iota beta.
    rewrite Hspan. cbv iota beta. rewrite Hfrac. cbv iota beta zeta.
    rewrite Hmag, pad_digits_length. f_equal. f_equal. f_equal. lia.
  - unfold parse_number. cbn [app]. unfold pad at 1. rewrite Eip. cbn [map app].
    inversion Hrange as [|? ? Hn0 _]; subst.
    destruct (digit_char_not_special n0 Hn0) as [Hminus _]. rewrite Hminus.
    cbv iota beta. rewrite Hspan. cbv iota beta. rewrite Hfrac. cbv iota beta zeta.
    rewrite Hmag, pad_digits_length. f_equal. f_equal. f_equal. lia.
Qed.

Lemma print_number_head (m : Z) (d : nat) :
  exists c r, print_number m d = c :: r /\
    (c = "-"%char \/ exists n, 0 <= n < 10 /\ c = digit_char n).
Proof.
  unfold print_number. destruct (m <? 0).
  - eexists _, _. split; [reflexivity | left; reflexivity].
  - set (a := Z.abs m / 10 ^ Z.of_nat d).
    pose proof (ndig_pos a) as Hnd. pose proof (pad_digits_range (ndig a) a) as Hrange.
    pose proof (pad_digits_length (ndig a) a) as Hl.
    unfold pad. destruct (pad_digits (ndig a) a) as [|n0 ds]; [simpl in Hl; lia|].
    inversion Hrange as [|? ? Hn0 _]; subst.
    eexists _, _. split; [reflexivity | right; exists n0; split; [exact Hn0 | reflexivity]].
Qed.

(** One character, escaped, reads back as itself. *)
Lemma parse_chars_escape (c : ascii) (r : list ascii) :
  parse_chars (escape_char c ++ r) =
  match parse_chars r with Some (t, r') => Some (c :: t, r') | None => None end.
Proof.
  destruct c as [b0 b1 b2 b3 b4 b5 b6 b7].
  destruct b0, b1, b2, b3, b4, b5, b6, b7; reflexivity.
Qed.

Lemma parse_chars_quote (s r : list ascii) :
  parse_chars (flat_map escape_char s ++ dq :: r) = Some (s, r).
Proof.
  induction s as [|c s IH]; [reflexivity|].
  cbn [flat_map]. rewrite <- app_assoc, parse_chars_escape, IH. reflexivity.
Qed.

Lemma parse_string_quote (k r : list ascii) : parse_string (quote k ++ r) = Some (k, r).
Proof.
  unfold quote. cbn [app]. rewrite <- app_assoc. cbn [app].
  change (parse_string (dq :: flat_map escape_char k ++ dq :: r))
    with (parse_chars (flat_map escape_char k ++ dq :: r)).
  apply parse_chars_quote.
Qed.

Lemma stringify_arr_cons (x : value) (l : list value) :
  stringify (JArr (x :: l)) = "["%char :: stringify x ++ stringify_tail l.
Proof. reflexivity. Qed.

Lemma stringify_obj_cons (k : list ascii) (x : value) (l : list (list ascii * value)) :
  stringify (JObj ((k, x) :: l)) =
  "{"%char :: quote k ++ ":"%char :: stringify x ++ stringify_mtail l.
Proof. reflexivity. Qed.

Lemma jsize_arr (l : list value) : jsize (JArr l) = S (lsize l).
Proof. reflexivity. Qed.

Lemma jsize_obj (l : list (list ascii * value)) : jsize (JObj l) = S (msize l).
Proof. reflexivity. Qed.

Lemma jsize_pos (v : value) : (1 <= jsize v)%nat.
Proof. destruct v; cbn [jsize]; lia. Qed.

Lemma stringify_start (v : value) :
  exists c r, stringify v = c :: r /\ is_ws c = false /\
    Ascii.eqb c "]"%char = false /\ Ascii.eqb c "}"%char = false.
Proof.
  destruct v as [| [] | m d | s | l | l]; try (eexists _, _; split; [reflexivity | auto]).
  destruct (print_number_head m d) as (c & r & Hpr & [-> | (n & Hn & ->)]).
  - exists "-"%char, r. cbn [stringify]. rewrite Hpr. auto.
  - exists (digit_char n), r. cbn [stringify]. rewrite Hpr.
    destruct (digit_char_not_special n Hn) as (_ & H1 & H2 & H3 & _). auto.
Qed.

Lemma starts_with_value (c : ascii) (v : value) (rest : list ascii) :
  c = "]"%char \/ c = "}"%char -> starts_with c (stringify v ++ rest) = None.
Proof.
  intros Hc. destruct (stringify_start v) as (c0 & r & Hs & Hws & H1 & H2).
  rewrite Hs. unfold starts_with. cbn [app skip_ws]. rewrite Hws.
  destruct Hc as [-> | ->]; [rewrite H1 | rewrite H2]; reflexivity.
Qed.

Lemma delim_tail (l : list value) (rest : list ascii) : delim (stringify_tail l ++ rest).
Proof. destruct l; simpl; auto. Qed.

Lemma delim_mtail (l : list (list ascii * value)) (rest : list ascii) :
  delim (stringify_mtail l ++ rest).
Proof. destruct l as [|[]]; simpl; auto. Qed.

Lemma parse_value_number (f : nat) (m : Z) (d : nat) (rest : list ascii) :
  parse_value (S f) (print_number m d ++ rest) = parse_number (print_number m d ++ rest).
Proof.
  destruct (print_number_head m d) as (c & r & Hpr & [-> | (n & Hn & ->)]);
    rewrite Hpr; cbn [app].
  - reflexivity.
  - destruct (digit_char_not_special n Hn) as (_ & _ & _ & _ & H). apply H.
Qed.

(** The round trip, one fuel unit per node and per element. *)
Lemma parse_value_stringify (f : nat) :
  forall (v : value) (rest : list ascii),
  (jsize v < f)%nat -> delim rest -> parse_value f (stringify v ++ rest) = Some (v, rest).
Proof.
  induction f as [f IH] using lt_wf_ind.
  intros v rest Hs Hr.
  destruct f as [|f]; [pose proof (jsize_pos v); lia|].
  assert (Helems : forall (l : list value) (g : nat) (rest : list ascii),
            (lsize l < g)%nat -> (g <= f)%nat -> delim rest ->
            parse_elems g (stringify_tail l ++ rest) = Some (l, rest)).
  { induction l as [|y l IHl]; intros g rest' Hl Hg Hr';
      destruct g as [|g]; cbn [lsize] in Hl; try lia.
    - reflexivity.
    - cbn [stringify_tail app].
      change (parse_elems (S g) (","%char :: (stringify y ++ stringify_tail l) ++ rest'))
        with (match parse_value g ((stringify y ++ stringify_tail l) ++ rest') with
              | Some (x, r1) =>
                  match parse_elems g r1 with
                  | Some (xs, r2) => Some (x :: xs, r2)
                  | None => None
                  end
              | None => None
              end).
      rewrite <- app_assoc, IH by (lia || apply delim_tail).
      rewrite IHl by (lia || exact Hr'). reflexivity. }
  assert (Hmembers : forall (l : list (list ascii * value)) (g : nat) (rest : list ascii),
            (msize l < g)%nat -> (g <= f)%nat -> delim rest ->
            parse_members g (stringify_mtail l ++ rest) = Some (l, rest)).
  { induction l as [|[k y] l IHl]; intros g rest' Hl Hg Hr';
      destruct g as [|g]; cbn [msize] in Hl; try lia.
    - reflexivity.
    - cbn [stringify_mtail app].
      change (parse_members (S g)
                (","%char :: (quote k ++ ":"%char :: stringify y ++ stringify_mtail l) ++ rest'))
        with (match parse_string ((quote k ++ ":"%char :: stringify y ++ stringify_mtail l) ++ rest') with
              | Some (k, r1) =>
                  match starts_with ":"%char r1 with
                  | Some r2 =>
                      match parse_value g r2 with
                      | Some (x, r3) =>
                          match parse_members g r3 with
                          | Some (xs, r4) => Some ((k, x) :: xs, r4)
                          | None => None
                          end
                      | None => None
                      end
                  | None => None
                  end
              | None => None
              end).
      rewrite <- app_assoc, parse_string_quote. cbn [app].
      change (starts_with ":"%char (":"%char :: (stringify y ++ stringify_mtail l) ++ rest'))
        with (Some ((stringify y ++ stringify_mtail l) ++ rest')).
      cbv iota beta.
      rewrite <- app_assoc, IH by (lia || apply delim_mtail).
      rewrite IHl by (lia || exact Hr'). reflexivity. }
  destruct v as [| [] | m d | s | l | l].
  - reflexivity.
  - reflexivity.
  - reflexivity.
  - cbn [stringify]. rewrite parse_value_number. apply parse_number_print; exact Hr.
  - cbn [stringify]. unfold quote. cbn [app]. rewrite <- app_assoc. cbn [app].
    change (parse_value (S f) (dq :: flat_map escape_char s ++ dq :: rest))
      with (match parse_chars (flat_map escape_char s ++ dq :: rest) with
            | Some (t, r') => Some (JStr t, r')
            | None => None
            end).
    rewrite parse_chars_quote. reflexivity.
  - destruct l as [|x l]; [reflexivity|].
    rewrite jsize_arr in Hs. cbn [lsize] in Hs.
    rewrite stringify_arr_cons. cbn [app].
    change (parse_value (S f) ("["%char :: (stringify x ++ stringify_tail l) ++ rest))
      with (match starts_with "]"%char ((stringify x ++ stringify_tail l) ++ rest) with
            | Some r' => Some (JArr [], r')
            | None =>
                match parse_value f ((stringify x ++ stringify_tail l) ++ rest) with
                | Some (x, r1) =>
                    match parse_elems f r1 with
                    | Some (xs, r2) => Some (JArr (x :: xs), r2)
                    | None => None
                    end
                | None => None
                end
            end).
    rewrite <- app_assoc, starts_with_value by auto.
    rewrite IH by (lia || apply delim_tail).
    rewrite Helems by (lia || exact Hr). reflexivity.
  - destruct l as [|[k x] l]; [reflexivity|].
    rewrite jsize_obj in Hs. cbn [msize] in Hs.
    rewrite stringify_obj_cons. cbn [app].
    change (parse_value (S f)
              ("{"%char :: (quote k ++ ":"%char :: stringify x ++ stringify_mtail l) ++ rest))
      with (match starts_with "}"%char ((quote k ++ ":"%char :: stringify x ++ stringify_mtail l) ++ rest) with
            | Some r' => Some (JObj [], r')
            | None =>
                match parse_string ((quote k ++ ":"%char :: stringify x ++ stringify_mtail l) ++ rest) with
                | Some (k, r1) =>
                    match starts_with ":"%char r1 with
                    | Some r2 =>
                        match parse_value f r2 with
                        | Some (x, r3) =>
                            match parse_members f r3 with
                            | Some (xs, r4) => Some (JObj ((k, x) :: xs), r4)
                            | None => None
                            end
                        | None => None
                        end
                    | None => None
                    end
                | None => None
                end
            end).
    rewrite <- app_assoc.
    replace (starts_with "}"%char (quote k ++ (":"%char :: stringify x ++ stringify_mtail l) ++ rest))
      with (@None (list ascii)) by reflexivity.
    rewrite parse_string_quote. cbn [app].
    change (starts_with ":"%char (":"%char :: (stringify x ++ stringify_mtail l) ++ rest))
      with (Some ((stringify x ++ stringify_mtail l) ++ rest)).
    cbv iota beta.
    rewrite <- app_assoc, IH by (lia || apply delim_mtail).
    rewrite Hmembers by (lia || exact Hr). reflexivity.
Qed.

Lemma quote_length (k : list ascii) : (2 <= length (quote k))%nat.
Proof. unfold quote. cbn [length]. rewrite length_app. cbn [length]. lia. Qed.

Lemma jsize_le_length (n : nat) :
  forall v : value, (jsize v < n)%nat -> (jsize v <= length (stringify v))%nat.
Proof.
  induction n as [|n IH]; intros v Hv; [lia|].
  destruct v as [| [] | m d | s | l | l]; cbn [stringify jsize length].
  - lia.
  - lia.
  - lia.
  - destruct (print_number_head m d) as (c & r & -> & _). cbn [length]. lia.
  - unfold quote. cbn [length]. lia.
  - assert (Ht : forall l', (lsize l' < n)%nat ->
                   (S (lsize l') <= length (stringify_tail l'))%nat).
    { induction l' as [|y l' IHl]; intros Hl; cbn [stringify_tail lsize length] in *; [lia|].
      rewrite length_app. pose proof (IH y ltac:(lia)). pose proof (IHl ltac:(lia)). lia. }
    rewrite jsize_arr in Hv. cbn [lsize] in Hv.
    destruct l as [|x l]; cbn [length lsize] in *; [lia|].
    rewrite length_app. pose proof (IH x ltac:(lia)). pose proof (Ht l ltac:(lia)).
    change ((fix go (l0 : list value) : nat :=
               match l0 with [] => O | x0 :: l'0 => S (jsize x0 + go l'0) end) l) with (lsize l).
    change ((fix tail (l0 : list value) : list ascii :=
               match l0 with
               | [] => ["]"%char]
               | y :: l'' => ","%char :: stringify y ++ tail l''
               end) l) with (stringify_tail l).
    lia.
  - assert (Ht : forall l', (msize l' < n)%nat ->
                   (S (msize l') <= length (stringify_mtail l'))%nat).
    { induction l' as [|[k y] l' IHl]; intros Hl; cbn [stringify_mtail msize length] in *; [lia|].
      rewrite !length_app. cbn [length]. rewrite length_app.
      pose proof (IH y ltac:(lia)). pose proof (IHl ltac:(lia)). pose proof (quote_length k). lia. }
    rewrite jsize_obj in Hv. cbn [msize] in Hv.
    destruct l as [|[k x] l]; cbn [length msize] in *; [lia|].
    rewrite !length_app. cbn [length]. rewrite length_app.
    pose proof (IH x ltac:(lia)). pose proof (Ht l ltac:(lia)). pose proof (quote_length k).
    change ((fix go (l0 : list (list ascii * value)) : nat :=
               match l0 with [] => O | (_, x0) :: l'0 => S (jsize x0 + go l'0) end) l)
      with (msize l).
    change ((fix tail (l0 : list (list ascii * value)) : list ascii :=
               match l0 with
               | [] => ["}"%char]
               | (k', y) :: l'' => ","%char :: quote k' ++ ":"%char :: stringify y ++ tail l''
               end) l) with (stringify_mtail l).
    lia.
Qed.

(** JSON.parse (JSON.stringify v) = v for every JSON value. *)
Lemma parse_stringify (v : value) : parse (stringify v) = Some v.
Proof.
  unfold parse.
  pose proof (jsize_le_length (S (jsize v)) v ltac:(lia)) as Hle.
  rewrite <- (app_nil_r (stringify v)) at 2.
  rewrite parse_value_stringify by (simpl; lia || exact I).
  reflexivity.
Qed.

End JSONFacts.

(* ------------------------------------------------------------------ *)
(** ** Events through the cache: JSON.stringify, then JSON.parse *)

Module EventFacts.
Import EventType.

Lemma as_strings_map_jstr (l : list string) : as_strings (map jstr l) = Some l.
Proof.
  induction l as [|s l IH]; [reflexivity|].
  cbn. rewrite string_of_list_ascii_of_string, IH. reflexivity.
Qed.

Lemma event_of_json_event_json (e : Event) :
  event_finite e = true -> event_of_json (event_json e) = Some e.
Proof.
  destruct e as [i n de dt o [la lo] img vn ids]; unfold event_finite; cbn.
  destruct la, lo, vn; try discriminate; intros _.
  destruct img as [u|]; cbv -[as_strings string_of_list_ascii map jstr]; cbn [as_string jstr];
    rewrite ?string_of_list_ascii_of_string, as_strings_map_jstr; reflexivity.
Qed.

Lemma events_of_json_events_json (evs : list Event) :
  forallb event_finite evs = true -> events_of_json (events_json evs) = Some evs.
Proof.
  unfold events_json, events_of_json.
  induction evs as [|e evs IH]; [reflexivity|].
  cbn [forallb map mapM]. intros [He Hl]%andb_prop.
  rewrite event_of_json_event_json by exact He. cbn.
  rewrite (IH Hl). reflexivity.
Qed.

(** C5: every JSON value comes back from the cache as it went in: JSON.parse
    of JSON.stringify is the identity, object fields and list elements in
    their order, numbers as numbers and strings as strings.  In particular
    a list of events whose numbers are finite (the only numbers JSON can
    carry) reads back as the same list, field by field. *)
Theorem events_cache_roundtrip (evs : list Event) (Hfin : forallb event_finite evs = true) :
  (forall v : JSON.value, JSON.parse (JSON.stringify v) = Some v) /\
  (JSON.parse (JSON.stringify (events_json evs)) ≫= events_of_json) = Some evs.
Proof.
  split; [exact JSONFacts.parse_stringify|].
  rewrite JSONFacts.parse_stringify. cbn. apply events_of_json_events_json, Hfin.
Qed.

Lemma events_cache_roundtrip_witness :
  forallb event_finite sample_events = true /\
  (JSON.parse (JSON.stringify (events_json sample_events)) ≫= events_of_json) = Some sample_events.
Proof.
  assert (H : forallb event_finite sample_events = true) by reflexivity.
  split; [exact H | exact (proj2 (events_cache_roundtrip sample_events H))].
Defined.

End EventFacts.

(* ------------------------------------------------------------------ *)
(** ** The events screen and its loader *)

Module LoaderFacts.
Import EventsMap.

(** Run the monadic code down to the store and the network outcome. *)
Ltac run_m :=
  unfold fetchAndCacheEvents, getFromNetworkFirst, try_finally, try_catch, bind, ret, throw,
    emit, AsyncStorage_getItem, AsyncStorage_setItem, setInCache, setEvents, setIsLoading,
    Alert_alert, getEvents_data, JSON_parse, run_effects, handleLogout,
    AsyncStorage_multiRemove in *;
  cbn -[JSON.parse JSON.stringify lookup insert delete] in *.

(** Case on every outcome the run depends on. *)
Ltac split_cases :=
  repeat (run_m;
    first [ rewrite lookup_insert_eq in *
          | match goal with
            | |- context [match ?e with Some _ => _ | None => _ end] => destruct e eqn:?
            | |- context [match ?e with inl _ => _ | inr _ => _ end] => destruct e eqn:?
            | |- context [if ?b then _ else _] => destruct b eqn:?
            end ]); run_m.

Lemma truthy_stringify (v : JSON.value) : truthy (JSON.stringify v) = true.
Proof. destruct (JSONFacts.stringify_start v) as (c & r & -> & _). reflexivity. Qed.

Lemma drop_trace (tr l : list Effect) : drop (length tr) (tr ++ l) = l.
Proof. apply drop_app_length. Qed.

Lemma gFNF_no_request (key : string) (request : Promise JSON.value) (w : World) :
  filter is_net_request (run_effects (getFromNetworkFirst key request) w) = [].
Proof.
  destruct w as [st ok ev ld tr]. split_cases.
  all: rewrite <- ?app_assoc, drop_app_length; reflexivity.
Qed.

Lemma fetch_store_grows (net : Promise JSON.value) (w : World) (k : string) :
  is_Some (store w !! k) -> is_Some (store (snd (fetchAndCacheEvents net w)) !! k).
Proof.
  destruct w as [st ok ev ld tr]; cbn. intros H. split_cases.
  all: rewrite ?lookup_insert_is_Some'; auto.
Qed.

(** C1: when the request fails and [key] holds a stored value, the loader
    returns that value, deserialized, and signals staleness on a side
    channel (the [StaleSignal] effect), not by rejecting.  On the events
    screen the same happens under "events_future": the run completes
    normally and the map shows the cached events, whether or not the
    storage accepts writes. *)
Theorem network_failure_serves_cache (key : string) (err : Error) (V : JSON.value) (w : World)
  (Hcached : store w !! key = Some (JSON.stringify V)) :
  fst (getFromNetworkFirst key (inr err) w) = inl V /\
  In (StaleSignal key) (run_effects (getFromNetworkFirst key (inr err)) w) /\
  (key = "events_future" ->
   fst (fetchAndCacheEvents (inr err) w) = inl tt /\
   events (snd (fetchAndCacheEvents (inr err) w)) = V /\
   In (StaleSignal key) (run_effects (fetchAndCacheEvents (inr err)) w)).
Proof.
  destruct w as [st ok ev ld tr]; cbn in Hcached.
  split; [|split]; [run_m; rewrite Hcached; run_m; rewrite JSONFacts.parse_stringify; run_m; auto ..|].
  - rewrite <- ?app_assoc, drop_trace. cbn. tauto.
  - intros ->. run_m. rewrite Hcached. run_m. rewrite JSONFacts.parse_stringify. run_m.
    destruct ok; run_m.
    + rewrite <- ?app_assoc, drop_trace. cbn. tauto.
    + rewrite Hcached, truthy_stringify. run_m. rewrite JSONFacts.parse_stringify. run_m.
      rewrite <- ?app_assoc, drop_trace. cbn. tauto.
Qed.

Lemma network_failure_serves_cache_witness :
  store (cached_world (EventType.events_json EventType.sample_events) false) !! "events_future" =
    Some (JSON.stringify (EventType.events_json EventType.sample_events)) /\
  events (snd (fetchAndCacheEvents (inr (NetworkFailure "timeout"))
                 (cached_world (EventType.events_json EventType.sample_events) false))) =
    EventType.events_json EventType.sample_events.
Proof.
  assert (H : store (cached_world (EventType.events_json EventType.sample_events) false)
                !! "events_future" =
              Some (JSON.stringify (EventType.events_json EventType.sample_events)))
    by apply lookup_insert_eq.
  split; [exact H|].
  exact (proj1 (proj2 (proj2 (proj2 (network_failure_serves_cache "events_future"
           (NetworkFailure "timeout") _ _ H)) eq_refl))).
Defined.

(** C2: a load whose request fails, with nothing stored under [key],
    rejects with [Unavailable] wrapping the network failure; and that is the
    only way a load rejects, as long as what is stored under [key] is text
    the loader itself wrote (JSON.stringify of a value): a successful
    request is returned even if the write fails, and a failed request with
    a stored value returns it. *)
Theorem load_unavailable_only_on_miss (key : string) (err : Error) (w : World)
  (Hmiss : store w !! key = None) :
  fst (getFromNetworkFirst key (inr err) w) = inr (Unavailable err) /\
  (forall req w' e,
     (forall text, store w' !! key = Some text -> exists v, text = JSON.stringify v) ->
     fst (getFromNetworkFirst key req w') = inr e ->
     exists err', req = inr err' /\ store w' !! key = None /\ e = Unavailable err').
Proof.
  split.
  - destruct w as [st ok ev ld tr]; cbn in Hmiss. run_m. rewrite Hmiss. reflexivity.
  - intros req [st ok ev ld tr] e Hst Hrun; cbn in Hst.
    destruct req as [fresh|err'].
    + run_m. destruct ok; run_m; discriminate.
    + run_m. destruct (st !! key) as [text|] eqn:E.
      * destruct (Hst text eq_refl) as [v ->].
        rewrite JSONFacts.parse_stringify in Hrun. run_m. discriminate.
      * run_m. injection Hrun as <-. eauto.
Qed.

Lemma load_unavailable_only_on_miss_witness :
  store empty_world !! "events_future" = None /\
  fst (getFromNetworkFirst "events_future" (inr (NetworkFailure "timeout")) empty_world) =
    inr (Unavailable (NetworkFailure "timeout")).
Proof.
  assert (H : store empty_world !! "events_future" = None) by (vm_compute; reflexivity).
  split; [exact H | exact (proj1 (load_unavailable_only_on_miss "events_future"
                                    (NetworkFailure "timeout") empty_world H))].
Defined.

(** C3: with a storage that accepts writes, a load whose request succeeds
    with [V] returns [V], and a later load under the same key whose request
    fails returns [V] again.  The events screen, run twice the same way,
    shows [V] both times. *)
Theorem cache_round_trip (key : string) (V : JSON.value) (err : Error) (w : World)
  (Hok : store_set_ok w = true) :
  fst (getFromNetworkFirst key (inl V) w) = inl V /\
  fst (getFromNetworkFirst key (inr err) (snd (getFromNetworkFirst key (inl V) w))) = inl V /\
  (key = "events_future" ->
   events (snd (fetchAndCacheEvents (inl V) w)) = V /\
   events (snd (fetchAndCacheEvents (inr err) (snd (fetchAndCacheEvents (inl V) w)))) = V).
Proof.
  destruct w as [st ok ev ld tr]; cbn in Hok; subst ok.
  split; [|split].
  - run_m. reflexivity.
  - run_m. rewrite lookup_insert_eq. run_m. rewrite JSONFacts.parse_stringify. reflexivity.
  - intros ->. split.
    + run_m. reflexivity.
    + run_m. rewrite !insert_insert_eq, lookup_insert_eq. run_m.
      rewrite JSONFacts.parse_stringify. run_m. reflexivity.
Qed.

Lemma cache_round_trip_witness :
  store_set_ok empty_world = true /\
  events (snd (fetchAndCacheEvents (inr (NetworkFailure "timeout"))
                 (snd (fetchAndCacheEvents (inl (EventType.events_json EventType.sample_events))
                         empty_world)))) =
    EventType.events_json EventType.sample_events.
Proof.
  assert (H : store_set_ok empty_world = true) by reflexivity.
  split; [exact H|].
  exact (proj2 (proj2 (proj2 (cache_round_trip "events_future"
           (EventType.events_json EventType.sample_events) (NetworkFailure "timeout")
           empty_world H)) eq_refl)).
Defined.

(** C4: when the request succeeds with [V] but the storage rejects writes,
    the loader itself still returns [V]; the events screen, though, awaits
    its second, "optional" write outside any guard, so the rejection lands
    in its catch block: it alerts "Offline" and shows what was stored
    before, never [V]. *)
Theorem failed_write_discards_fresh (V : JSON.value) (w : World)
  (Hfail : store_set_ok w = false) :
  fst (getFromNetworkFirst "events_future" (inl V) w) = inl V /\
  In (Notify "Offline" "Loaded events from cache.") (run_effects (fetchAndCacheEvents (inl V)) w) /\
  events (snd (fetchAndCacheEvents (inl V) w)) = cached_or (store w !! "events_future") (events w).
Proof.
  destruct w as [st ok ev ld tr]; cbn in Hfail; subst ok.
  split; [|split].
  - run_m. reflexivity.
  - run_m. destruct (st !! "events_future") as [t|] eqn:E; run_m.
    + destruct (truthy t); run_m; [destruct (JSON.parse t); run_m|];
      rewrite <- ?app_assoc, drop_trace; cbn; tauto.
    + rewrite <- ?app_assoc, drop_trace; cbn; tauto.
  - unfold cached_or. run_m. destruct (st !! "events_future") as [t|] eqn:E; run_m; auto.
    destruct (truthy t); run_m; [destruct (JSON.parse t); run_m|]; auto.
Qed.

Lemma failed_write_discards_fresh_witness :
  store_set_ok (cached_world (JSON.JArr []) false) = false /\
  events (snd (fetchAndCacheEvents (inl (EventType.events_json EventType.sample_events))
                 (cached_world (JSON.JArr []) false))) =
    cached_or (store (cached_world (JSON.JArr []) false) !! "events_future")
              (events (cached_world (JSON.JArr []) false)).
Proof.
  assert (H : store_set_ok (cached_world (JSON.JArr []) false) = false) by reflexivity.
  split; [exact H|].
  exact (proj2 (proj2 (failed_write_discards_fresh
           (EventType.events_json EventType.sample_events) _ H))).
Defined.

(** C4, the failing run: the stored list is empty, the request returns the
    three sample events, the storage rejects writes; the screen ends showing
    the empty list. *)
Lemma failed_write_discards_fresh_example :
  events (snd (fetchAndCacheEvents (inl (EventType.events_json EventType.sample_events))
                 (cached_world (JSON.JArr []) false))) = JSON.JArr [] /\
  fst (getFromNetworkFirst "events_future" (inl (EventType.events_json EventType.sample_events))
         (cached_world (JSON.JArr []) false)) =
    inl (EventType.events_json EventType.sample_events).
Proof. split; vm_compute; reflexivity. Qed.

(** C6: the loader reads and writes one key only, the one it is given; on
    the events screen every storage access, loader call and stale signal
    is under "events_future". *)
Theorem single_cache_key :
  (forall (key : string) (request : Promise JSON.value) (w : World),
     Forall (fun e => effect_key e = None \/ effect_key e = Some key)
       (run_effects (getFromNetworkFirst key request) w)) /\
  (forall (net : Promise JSON.value) (w : World),
     Forall (fun e => effect_key e = None \/ effect_key e = Some "events_future")
       (run_effects (fetchAndCacheEvents net) w)).
Proof.
  split.
  - intros key request [st ok ev ld tr]. split_cases.
    all: rewrite <- ?app_assoc, drop_app_length; cbn [app];
      repeat (constructor; [cbn; auto |]); constructor.
  - intros net [st ok ev ld tr]. split_cases.
    all: rewrite <- ?app_assoc, drop_app_length; cbn [app];
      repeat (constructor; [cbn; auto |]); constructor.
Qed.

(** C7: one run of the events screen sends the request exactly once, the
    loader never sends it again, and after a failure the fallback read
    follows at once. *)
Theorem single_network_attempt :
  (forall (net : Promise JSON.value) (w : World),
     length (filter is_net_request (run_effects (fetchAndCacheEvents net) w)) = 1%nat) /\
  (forall (key : string) (request : Promise JSON.value) (w : World),
     filter is_net_request (run_effects (getFromNetworkFirst key request) w) = []) /\
  (forall (err : Error) (w : World),
     take 4 (run_effects (fetchAndCacheEvents (inr err)) w) =
     [SetIsLoading true; NetRequest; LoaderCall "events_future"; StoreGet "events_future"]).
Proof.
  split; [|split].
  - intros net [st ok ev ld tr]. split_cases.
    all: rewrite <- ?app_assoc, drop_app_length; reflexivity.
  - exact gFNF_no_request.
  - intros err [st ok ev ld tr]. split_cases.
    all: rewrite <- ?app_assoc, drop_app_length; reflexivity.
Qed.

(** C8, counterexample: the request is under way before the loader runs;
    the screen evaluates [getEvents()] and hands the loader the promise. *)
Lemma request_before_loader_cex :
  take 3 (run_effects (fetchAndCacheEvents (inr (NetworkFailure "timeout"))) empty_world) =
  [SetIsLoading true; NetRequest; LoaderCall "events_future"].
Proof. vm_compute. reflexivity. Qed.

(** C8, as the code has it: in every run the request is sent before the
    loader is called, and the loader, given an already started promise,
    never sends a request itself. *)
Theorem request_before_loader :
  (forall (net : Promise JSON.value) (w : World),
     take 3 (run_effects (fetchAndCacheEvents net) w) =
     [SetIsLoading true; NetRequest; LoaderCall "events_future"]) /\
  (forall (key : string) (request : Promise JSON.value) (w : World),
     filter is_net_request (run_effects (getFromNetworkFirst key request) w) = []).
Proof.
  split.
  - intros net [st ok ev ld tr]. split_cases.
    all: rewrite <- ?app_assoc, drop_app_length; reflexivity.
  - exact gFNF_no_request.
Qed.

(** C9: logout removes "userInfo" and "accessToken" and leaves every other
    key, "events_future" among them, as it was; a run of the events screen
    never removes a stored entry. *)
Theorem logout_spares_cache :
  (forall (k : string) (w : World), k <> "userInfo" -> k <> "accessToken" ->
     store (snd (handleLogout w)) !! k = store w !! k) /\
  (forall w : World,
     store (snd (handleLogout w)) !! "userInfo" = None /\
     store (snd (handleLogout w)) !! "accessToken" = None) /\
  (forall w : World,
     store (snd (handleLogout w)) !! "events_future" = store w !! "events_future") /\
  (forall (net : Promise JSON.value) (w : World) (k : string),
     is_Some (store w !! k) -> is_Some (store (snd (fetchAndCacheEvents net w)) !! k)).
Proof.
  split; [|split; [|split]].
  - intros k [st ok ev ld tr] H1 H2. run_m.
    rewrite !lookup_delete_ne by congruence. reflexivity.
  - intros [st ok ev ld tr]. run_m. split.
    + apply lookup_delete_eq.
    + rewrite lookup_delete_ne by (intro; discriminate). apply lookup_delete_eq.
  - intros [st ok ev ld tr]. run_m.
    rewrite !lookup_delete_ne by (intro; discriminate). reflexivity.
  - exact fetch_store_grows.
Qed.

End LoaderFacts.

(* ------------------------------------------------------------------ *)
(** ** What the create-event form submits *)

Module CreateEventFacts.
Import EventType CreateEvent.
Local Open Scope Z_scope.

(** ** trim *)

Lemma drop_ws_suffix (l : list ascii) : exists p, l = p ++ drop_ws l.
Proof.
  induction l as [|c r [p Hp]]; [exists []; reflexivity|].
  cbn. destruct (js_ws c); [exists (c :: p); cbn; congruence | exists []; reflexivity].
Qed.

Lemma drop_ws_idem (l : list ascii) : drop_ws (drop_ws l) = drop_ws l.
Proof.
  induction l as [|c r IH]; [reflexivity|].
  cbn. destruct (js_ws c) eqn:E; [exact IH|]. cbn. rewrite E. reflexivity.
Qed.

Lemma drop_ws_head (c : ascii) (r : list ascii) :
  js_ws c = false -> drop_ws (c :: r) = c :: r.
Proof. intros H. cbn. rewrite H. reflexivity. Qed.

Lemma drop_ws_prefix (x y : list ascii) :
  drop_ws (x ++ y) = x ++ y -> drop_ws x = x.
Proof.
  destruct x as [|c x]; [reflexivity|]. cbn.
  destruct (js_ws c) eqn:E; [|reflexivity].
  intros H. exfalso.
  destruct (drop_ws_suffix (x ++ y)) as [p Hp].
  assert (Hl : length (x ++ y) = (length p + length (drop_ws (x ++ y)))%nat)
    by (rewrite <- length_app, <- Hp; reflexivity).
  rewrite H in Hl. cbn in Hl. lia.
Qed.

Lemma trim_list_idem (l : list ascii) : trim_list (trim_list l) = trim_list l.
Proof.
  unfold trim_list.
  set (a := drop_ws l). set (b := drop_ws (rev a)).
  assert (Ha : drop_ws a = a) by apply drop_ws_idem.
  assert (Hb : drop_ws b = b) by apply drop_ws_idem.
  assert (Hrb : drop_ws (rev b) = rev b).
  { destruct (drop_ws_suffix (rev a)) as [p Hp]. fold b in Hp.
    assert (Ha' : a = rev b ++ rev p) by (rewrite <- rev_app_distr, <- Hp, rev_involutive; reflexivity).
    rewrite Ha' in Ha. exact (drop_ws_prefix _ _ Ha). }
  rewrite Hrb, rev_involutive, Hb. reflexivity.
Qed.

Lemma trim_idem (s : string) : trim (trim s) = trim s.
Proof. unfold trim. rewrite list_ascii_of_string_of_list_ascii, trim_list_idem. reflexivity. Qed.

Lemma length_pos_nonempty (s : string) : (0 <? String.length s)%nat = true -> s <> ""%string.
Proof. intros H ->. discriminate. Qed.

(** ** Digits *)

Lemma mapM_char_digit_digits (ds : list Z) :
  Forall (fun d => 0 <= d < 10) ds -> mapM JSON.char_digit (map JSON.digit_char ds) = Some ds.
Proof.
  induction 1 as [|d ds Hd _ IH]; [reflexivity|].
  cbn [map mapM]. rewrite JSONFacts.char_digit_digit_char by exact Hd. cbn. rewrite IH. reflexivity.
Qed.

Lemma mapM_char_digit_pad (k : nat) (v : Z) :
  mapM JSON.char_digit (JSON.pad k v) = Some (JSON.pad_digits k v).
Proof. apply mapM_char_digit_digits, JSONFacts.pad_digits_range. Qed.

Lemma all_digits_pad (k : nat) (v : Z) : all_digits (JSON.pad k v) = true.
Proof. unfold all_digits. rewrite mapM_char_digit_pad. reflexivity. Qed.

Lemma digits_range_pad (k : nat) (v lo hi : Z) :
  0 <= v < 10 ^ Z.of_nat k -> lo <= v <= hi -> digits_range (JSON.pad k v) lo hi = true.
Proof.
  intros Hv Hr. unfold digits_range. rewrite mapM_char_digit_pad, JSONFacts.pad_digits_val.
  rewrite Z.mod_small by exact Hv. apply andb_true_intro; split; apply Z.leb_le; lia.
Qed.

Lemma pad_length (k : nat) (v : Z) : length (JSON.pad k v) = k.
Proof. unfold JSON.pad. rewrite length_map. apply JSONFacts.pad_digits_length. Qed.

Lemma digit_char_not_sign (n : Z) :
  0 <= n < 10 ->
  Ascii.eqb (JSON.digit_char n) "+"%char = false /\ Ascii.eqb (JSON.digit_char n) "-"%char = false.
Proof.
  intros H%JSONFacts.digit_cases.
  repeat destruct H as [<- | H]; [split; reflexivity .. | contradiction].
Qed.

Lemma pad_head (k : nat) (v : Z) :
  exists c r, JSON.pad (S k) v = c :: r /\
    Ascii.eqb c "+"%char = false /\ Ascii.eqb c "-"%char = false.
Proof.
  unfold JSON.pad. pose proof (JSONFacts.pad_digits_range (S k) v) as Hr.
  pose proof (JSONFacts.pad_digits_length (S k) v) as Hl.
  destruct (JSON.pad_digits (S k) v) as [|d ds]; [discriminate|].
  inversion Hr as [|? ? Hd]; subst.
  destruct (digit_char_not_sign d Hd) as [H1 H2].
  exists (JSON.digit_char d), (map JSON.digit_char ds). auto.
Qed.

(** ** The calendar *)

Lemma check_from_spec (fuel : nat) (doe : Z) :
  check_from fuel doe = true -> forall x, doe <= x < doe + Z.of_nat fuel -> md_ok x = true.
Proof.
  revert doe; induction fuel as [|f IH]; intros doe H x Hx; [lia|].
  cbn in H. apply andb_prop in H as [H1 H2].
  destruct (Z.eq_dec x doe) as [->|Hne]; [exact H1|].
  apply (IH (doe + 1) H2). lia.
Qed.

Lemma check_era : check_from (Z.to_nat 146097) 0 = true.
Proof. vm_compute. reflexivity. Qed.

Lemma md_ok_era (doe : Z) : 0 <= doe <= 146096 -> md_ok doe = true.
Proof. intros H. apply (check_from_spec _ 0 check_era). cbn. lia. Qed.

Lemma civil_from_days_md (days : Z) :
  snd (fst (civil_from_days days)) = fst (md_of_doe ((days + 719468) mod 146097)) /\
  snd (civil_from_days days) = snd (md_of_doe ((days + 719468) mod 146097)).
Proof.
  assert (Hdoe : days + 719468 - (days + 719468) / 146097 * 146097 = (days + 719468) mod 146097)
    by (rewrite Z.mod_eq by lia; lia).
  unfold civil_from_days, md_of_doe. cbv zeta. rewrite Hdoe. split; reflexivity.
Qed.

Lemma civil_from_days_range (days : Z) :
  1 <= snd (fst (civil_from_days days)) <= 12 /\ 1 <= snd (civil_from_days days) <= 31.
Proof.
  destruct (civil_from_days_md days) as [-> ->].
  pose proof (Z.mod_pos_bound (days + 719468) 146097 ltac:(lia)) as Hb.
  pose proof (md_ok_era ((days + 719468) mod 146097) ltac:(lia)) as Hok.
  unfold md_ok in Hok. destruct (md_of_doe _) as [m d]. cbn.
  repeat match goal with H : _ && _ = true |- _ => apply andb_prop in H as [? ?] end.
  rewrite !Z.leb_le in *. lia.
Qed.

(** ** toISOString writes an ISO-8601 date-time *)

Ltac destruct_pad k v :=
  let Hl := fresh "Hl" in
  pose proof (pad_length k v) as Hl;
  destruct (JSON.pad k v) as [|? [|? [|? [|?]]]]; cbn in Hl; try discriminate.

Lemma iso_tail_ok (mo d h mi s f : Z) :
  1 <= mo <= 12 -> 1 <= d <= 31 -> 0 <= h <= 23 -> 0 <= mi <= 59 -> 0 <= s <= 59 ->
  0 <= f <= 999 ->
  iso_tail ("-"%char :: JSON.pad 2 mo ++ "-"%char :: JSON.pad 2 d ++
            "T"%char :: JSON.pad 2 h ++ ":"%char :: JSON.pad 2 mi ++
            ":"%char :: JSON.pad 2 s ++ "."%char :: JSON.pad 3 f ++ ["Z"%char]) = true.
Proof.
  intros Hmo Hd Hh Hmi Hs Hf.
  pose proof (digits_range_pad 2 mo 1 12 ltac:(cbn; lia) Hmo) as R1.
  pose proof (digits_range_pad 2 d 1 31 ltac:(cbn; lia) Hd) as R2.
  pose proof (digits_range_pad 2 h 0 23 ltac:(cbn; lia) Hh) as R3.
  pose proof (digits_range_pad 2 mi 0 59 ltac:(cbn; lia) Hmi) as R4.
  pose proof (digits_range_pad 2 s 0 59 ltac:(cbn; lia) Hs) as R5.
  pose proof (digits_range_pad 3 f 0 999 ltac:(cbn; lia) Hf) as R6.
  destruct_pad 2%nat mo. destruct_pad 2%nat d. destruct_pad 2%nat h.
  destruct_pad 2%nat mi. destruct_pad 2%nat s. destruct_pad 3%nat f.
  cbn [app iso_tail]. rewrite R1, R2, R3, R4, R5, R6. reflexivity.
Qed.

Lemma is_iso_of_parts (y : Z) (rest : list ascii) :
  length rest = 20%nat -> iso_tail rest = true ->
  is_iso_datetime (string_of_list_ascii (year_string y ++ rest)) = true.
Proof.
  intros Hlen Htail.
  unfold is_iso_datetime. rewrite list_ascii_of_string_of_list_ascii. unfold year_string.
  destruct ((0 <=? y) && (y <=? 9999)).
  - destruct (pad_head 3 y) as (c & r & Hp & H1 & H2).
    pose proof (all_digits_pad 4 y) as Hd. pose proof (pad_length 4 y) as Hl.
    change (S 3) with 4%nat in Hp. rewrite Hp in Hd, Hl |- *.
    cbn [app]. rewrite H1, H2. cbn [orb]. rewrite app_comm_cons.
    rewrite take_app_length' by (symmetry; exact Hl).
    rewrite drop_app_length' by (symmetry; exact Hl).
    rewrite Hd, Htail, length_app, Hl, Hlen. reflexivity.
  - cbn [app].
    replace (Ascii.eqb (if y <? 0 then "-"%char else "+"%char) "+"%char
             || Ascii.eqb (if y <? 0 then "-"%char else "+"%char) "-"%char) with true
      by (destruct (y <? 0); reflexivity).
    rewrite take_app_length' by (symmetry; apply pad_length).
    rewrite drop_app_length' by (symmetry; apply pad_length).
    rewrite all_digits_pad, Htail, length_app, pad_length, Hlen. reflexivity.
Qed.

Lemma toISOString_iso (t : Z) (s : string) :
  toISOString (Some t) = Some s -> is_iso_datetime s = true.
Proof.
  unfold toISOString. destruct (civil_from_days (t / msPerDay)) as [[y mo] d] eqn:Hc.
  intros H. injection H as <-.
  pose proof (civil_from_days_range (t / msPerDay)) as Hr. rewrite Hc in Hr. cbn in Hr.
  pose proof (Z.mod_pos_bound t msPerDay ltac:(unfold msPerDay; lia)) as Hms.
  apply is_iso_of_parts.
  - cbn [length]. rewrite ?length_app. cbn [length]. rewrite ?pad_length. reflexivity.
  - unfold msPerDay in *. set (ms := t mod 86400000) in *.
    apply iso_tail_ok; try lia.
    + split; [apply Z.div_pos; lia | apply Z.lt_succ_r, Z.div_lt_upper_bound; lia].
    + pose proof (Z.mod_pos_bound (ms / 60000) 60 ltac:(lia)); lia.
    + pose proof (Z.mod_pos_bound (ms / 1000) 60 ltac:(lia)); lia.
    + pose proof (Z.mod_pos_bound ms 1000 ltac:(lia)); lia.
Qed.

(** C10: whenever Save submits an event, its trimmed name and description
    are non-empty, volunteersNeeded is a finite number above zero, imageUrl
    is a defined, non-empty URL, dateTime is a non-empty ISO-8601 date-time
    as toISOString writes it, and volunteersIds is empty; for any Number,
    date parser and time zone of the runtime. *)
Theorem submitted_event_valid (Number : string -> number) (Date_parse : string -> option Z)
  (offset_of_utc offset_of_local : Z -> Z) (st : FormState) (uuid : string)
  (auth_id : option string) (e : Event)
  (Hsave : handleSave Number Date_parse offset_of_utc offset_of_local st uuid auth_id =
           Submitted e) :
  trim (EventType.name e) <> ""%string /\ trim (EventType.description e) <> ""%string /\
  isFinite (EventType.volunteersNeeded e) = true /\ gt0 (EventType.volunteersNeeded e) = true /\
  (exists u, imageUrl e = Some u /\ u <> ""%string) /\
  dateTime e <> ""%string /\ is_iso_datetime (dateTime e) = true /\
  volunteersIds e = [].
Proof.
  unfold handleSave in Hsave.
  destruct (isoDateTime Number Date_parse offset_of_utc offset_of_local (date st) (time st))
    as [iso|] eqn:Hiso; [|discriminate].
  destruct (canSave Number st iso) eqn:Hc; cbn in Hsave; [|discriminate].
  injection Hsave as <-.
  cbn [EventType.name EventType.description EventType.volunteersNeeded EventType.imageUrl
       EventType.dateTime EventType.volunteersIds].
  unfold canSave in Hc.
  repeat match goal with H : _ && _ = true |- _ => apply andb_prop in H as [? ?] end.
  split; [rewrite trim_idem; apply length_pos_nonempty; assumption|].
  split; [rewrite trim_idem; apply length_pos_nonempty; assumption|].
  split.
  { match goal with H : negb (isNaN _) = true |- _ => revert H end.
    unfold numericVolunteers. destruct (isFinite (Number (volunteersNeeded st))) eqn:Hf;
      [intros _; exact Hf | discriminate]. }
  split; [assumption|].
  split.
  { destruct (imageRemoteUrl st) as [u|]; [|discriminate].
    exists u. split; [reflexivity|]. unfold truthy_string in *. intros ->. discriminate. }
  split; [apply length_pos_nonempty; assumption|].
  split; [|reflexivity].
  unfold isoDateTime in Hiso.
  destruct (negb (truthy_string (date st)) || negb (truthy_string (time st))).
  - injection Hiso as <-. discriminate.
  - destruct (setHours offset_of_utc offset_of_local (new_Date Date_parse (date st)) _ _ _ _)
      as [t|]; [|discriminate].
    exact (toISOString_iso t iso Hiso).
Qed.

Lemma submitted_event_valid_witness :
  handleSave decimal_Number date_only_parse (fun _ => 0) (fun _ => 0) sample_form "1"
    (Some "u1") = Submitted beach_cleanup /\
  is_iso_datetime (dateTime beach_cleanup) = true /\ volunteersIds beach_cleanup = [].
Proof.
  assert (H : handleSave decimal_Number date_only_parse (fun _ => 0) (fun _ => 0) sample_form "1"
                (Some "u1") = Submitted beach_cleanup) by (vm_compute; reflexivity).
  split; [exact H|].
  destruct (submitted_event_valid _ _ _ _ _ _ _ _ H) as (_ & _ & _ & _ & _ & _ & Hiso & Hids).
  split; [exact Hiso | exact Hids].
Defined.

End CreateEventFacts.


(* ------------------------------------------------------------------ *)
(** ** Date.parse inverts toISOString *)

Module DateFacts.
Import EventType CreateEvent JSDate CreateEventFacts.
Local Open Scope Z_scope.

Lemma read_digits_pad (k : nat) (v : Z) (r : list ascii) :
  0 <= v < 10 ^ Z.of_nat k -> read_digits k (JSON.pad k v ++ r) = Some (v, r).
Proof.
  intros Hv. unfold read_digits.
  rewrite length_app, pad_length.
  replace (k <=? k + length r)%nat with true by (symmetry; apply Nat.leb_le; lia).
  rewrite take_app_length' by (symmetry; apply pad_length).
  rewrite drop_app_length' by (symmetry; apply pad_length).
  rewrite mapM_char_digit_pad, JSONFacts.pad_digits_val, Z.mod_small by exact Hv.
  reflexivity.
Qed.

Lemma read_year_string (y : Z) (r : list ascii) :
  -1000000 < y < 1000000 -> read_year (year_string y ++ r) = Some (y, r).
Proof.
  intros Hy. unfold year_string.
  destruct ((0 <=? y) && (y <=? 9999)) eqn:E.
  - apply andb_prop in E as [E1 E2]. apply Z.leb_le in E1, E2.
    destruct (pad_head 3 y) as (c & r' & Hp & Hplus & Hminus).
    assert (Hd : read_digits 4 (JSON.pad 4 y ++ r) = Some (y, r))
      by (apply read_digits_pad; cbn; lia).
    rewrite Hp in Hd |- *. cbn [app read_year]. rewrite Hplus, Hminus. exact Hd.
  - destruct (y <? 0) eqn:En; cbn [app read_year]; cbn -[read_digits JSON.pad].
    + apply Z.ltb_lt in En.
      rewrite read_digits_pad by (cbn; lia).
      replace (Z.abs y =? 0) with false by (symmetry; apply Z.eqb_neq; lia).
      f_equal. f_equal. lia.
    + apply Z.ltb_ge in En. apply andb_false_iff in E as [E|E]; apply Z.leb_gt in E; [lia|].
      rewrite read_digits_pad by (cbn; lia). f_equal. f_equal. lia.
Qed.

Lemma check_yoe_from_spec (fuel : nat) (doe : Z) :
  check_yoe_from fuel doe = true -> forall x, doe <= x < doe + Z.of_nat fuel -> yoe_doy_ok x = true.
Proof.
  revert doe; induction fuel as [|f IH]; intros doe H x Hx; [lia|].
  cbn in H. apply andb_prop in H as [H1 H2].
  destruct (Z.eq_dec x doe) as [->|Hne]; [exact H1|].
  apply (IH (doe + 1) H2). lia.
Qed.

Lemma check_yoe_era : check_yoe_from (Z.to_nat 146097) 0 = true.
Proof. vm_compute. reflexivity. Qed.

Lemma yoe_doy_era (doe : Z) : 0 <= doe <= 146096 ->
  let yoe := (doe - doe / 1460 + doe / 36524 - doe / 146096) / 365 in
  0 <= yoe <= 399 /\ 0 <= doe - (365 * yoe + yoe / 4 - yoe / 100) <= 365.
Proof.
  intros H. pose proof (check_yoe_from_spec _ 0 check_yoe_era doe ltac:(cbn; lia)) as Hok.
  unfold yoe_doy_ok, yoe_doy in Hok. cbv zeta in *.
  repeat (apply andb_prop in Hok as [Hok ?]). apply Z.leb_le in Hok.
  repeat match goal with Hb : (_ <=? _) = true |- _ => apply Z.leb_le in Hb end.
  lia.
Qed.

Lemma days_from_civil_inv (days : Z) :
  let '(y, m, d) := civil_from_days days in days_from_civil y m d = days.
Proof.
  unfold civil_from_days. cbv zeta.
  set (z := days + 719468).
  set (era := z / 146097).
  set (doe := z - era * 146097).
  assert (Hdoe : 0 <= doe <= 146096) by (unfold doe, era; clearbody z; Z.to_euclidean_division_equations; lia).
  pose proof (yoe_doy_era doe Hdoe) as Hyd. cbv zeta in Hyd.
  set (yoe := (doe - doe / 1460 + doe / 36524 - doe / 146096) / 365) in *.
  set (doy := doe - (365 * yoe + yoe / 4 - yoe / 100)) in *.
  set (mp := (5 * doy + 2) / 153).
  assert (Hmp : 0 <= mp <= 11) by (unfold mp; clearbody doy yoe doe era z; Z.to_euclidean_division_equations; lia).
  assert (Hd : (153 * mp + 2) / 5 <= doy) by (unfold mp; clearbody doy yoe doe era z; Z.to_euclidean_division_equations; lia).
  unfold days_from_civil.
  assert (Hera : (yoe + era * 400) / 400 = era)
    by (clearbody mp doy yoe doe era z; Z.to_euclidean_division_equations; lia).
  destruct (mp <? 10) eqn:Emp; [apply Z.ltb_lt in Emp | apply Z.ltb_ge in Emp].
  - replace ((mp + 3) <=? 2) with false by (symmetry; apply Z.leb_gt; lia).
    cbv zeta. replace ((mp + 3) <=? 2) with false by (symmetry; apply Z.leb_gt; lia).
    replace (2 <? mp + 3) with true by (symmetry; apply Z.ltb_lt; lia).
    rewrite Hera. replace (mp + 3 - 3) with mp by lia.
    replace (yoe + era * 400 - era * 400) with yoe by lia.
    unfold doe in *. lia.
  - replace ((mp - 9) <=? 2) with true by (symmetry; apply Z.leb_le; lia).
    cbv zeta. replace ((mp - 9) <=? 2) with true by (symmetry; apply Z.leb_le; lia).
    replace (2 <? mp - 9) with false by (symmetry; apply Z.ltb_ge; lia).
    replace (yoe + era * 400 + 1 - 1) with (yoe + era * 400) by lia.
    rewrite Hera. replace (mp - 9 + 9) with mp by lia.
    replace (yoe + era * 400 - era * 400) with yoe by lia.
    unfold doe in *. lia.
Qed.

Lemma Date_parse_iso_parts (y mo d h mi sec f : Z) :
  -1000000 < y < 1000000 -> 1 <= mo <= 12 -> 1 <= d <= 31 -> 0 <= h <= 23 ->
  0 <= mi <= 59 -> 0 <= sec <= 59 -> 0 <= f <= 999 ->
  Date_parse_iso (string_of_list_ascii
    (year_string y ++ "-"%char :: JSON.pad 2 mo ++ "-"%char :: JSON.pad 2 d ++
     "T"%char :: JSON.pad 2 h ++ ":"%char :: JSON.pad 2 mi ++
     ":"%char :: JSON.pad 2 sec ++ "."%char :: JSON.pad 3 f ++ ["Z"%char])) =
  Some (MakeDate (MakeDay y (mo - 1) d) (h * 3600000 + mi * 60000 + sec * 1000 + f)).
Proof.
  intros Hy Hmo Hd Hh Hmi Hs Hf.
  unfold Date_parse_iso. rewrite list_ascii_of_string_of_list_ascii.
  rewrite read_year_string by exact Hy.
  assert (R2 : forall v r, 0 <= v < 100 -> read_digits 2 (JSON.pad 2 v ++ r) = Some (v, r))
    by (intros v r Hv; apply read_digits_pad; cbn; lia).
  assert (R3 : read_digits 3 (JSON.pad 3 f ++ ["Z"%char]) = Some (f, ["Z"%char]))
    by (apply read_digits_pad; cbn; lia).
  cbn [read_char Ascii.eqb Bool.eqb].
  rewrite R2 by lia. cbn [read_char Ascii.eqb Bool.eqb].
  rewrite R2 by lia.
  replace ((1 <=? mo) && (mo <=? 12) && (1 <=? d) && (d <=? 31)) with true
    by (symmetry; repeat (apply andb_true_intro; split); apply Z.leb_le; lia).
  cbn [negb read_char Ascii.eqb Bool.eqb].
  rewrite R2 by lia. cbn [read_char Ascii.eqb Bool.eqb].
  rewrite R2 by lia. cbn [read_char Ascii.eqb Bool.eqb].
  rewrite R2 by lia. cbn [read_char Ascii.eqb Bool.eqb].
  rewrite R3.
  replace ((h <=? 24) && (mi <=? 59) && (sec <=? 59) &&
           (negb (h =? 24) || ((mi =? 0) && (sec =? 0) && (f =? 0)))) with true.
  - reflexivity.
  - symmetry. replace (h =? 24) with false by (symmetry; apply Z.eqb_neq; lia).
    rewrite orb_true_l. rewrite !andb_true_r.
    repeat (apply andb_true_intro; split); apply Z.leb_le; lia.
Qed.

Lemma civil_year_bound (days : Z) :
  -100000000 <= days <= 100000000 -> -1000000 < fst (fst (civil_from_days days)) < 1000000.
Proof.
  intros Hdays. unfold civil_from_days. cbv zeta.
  set (z := days + 719468).
  set (era := z / 146097).
  set (doe := z - era * 146097).
  assert (Hdoe : 0 <= doe <= 146096)
    by (unfold doe, era; clearbody z; Z.to_euclidean_division_equations; lia).
  assert (Hera : -700 <= era <= 700)
    by (unfold era, z; Z.to_euclidean_division_equations; lia).
  pose proof (yoe_doy_era doe Hdoe) as Hyd. cbv zeta in Hyd.
  set (yoe := (doe - doe / 1460 + doe / 36524 - doe / 146096) / 365) in *.
  clearbody yoe.
  destruct (_ <=? 2); cbn; lia.
Qed.

Lemma MakeDay_civil (y mo d : Z) :
  1 <= mo <= 12 -> MakeDay y (mo - 1) d = days_from_civil y mo d.
Proof.
  intros Hmo. unfold MakeDay.
  replace ((mo - 1) / 12) with 0 by (symmetry; apply Z.div_small; lia).
  replace ((mo - 1) mod 12 + 1) with mo by (rewrite Z.mod_small by lia; lia).
  unfold days_from_civil. cbv zeta. rewrite Z.add_0_r. lia.
Qed.

Lemma iso_roundtrip (t : Z) :
  TimeClip t = Some t -> exists s, toISOString (Some t) = Some s /\ Date_parse_iso s = Some t.
Proof.
  intros Ht. unfold TimeClip in Ht.
  destruct (Z.abs t <=? 8640000000000000) eqn:E; [|discriminate]. apply Z.leb_le in E.
  assert (Hday : -100000000 <= t / msPerDay <= 100000000)
    by (unfold msPerDay; Z.to_euclidean_division_equations; lia).
  pose proof (days_from_civil_inv (t / msPerDay)) as Hinv.
  pose proof (civil_from_days_range (t / msPerDay)) as Hr.
  pose proof (civil_year_bound (t / msPerDay) Hday) as Hy.
  unfold toISOString.
  destruct (civil_from_days (t / msPerDay)) as [[y mo] d] eqn:Hc. cbn in Hr, Hy.
  eexists; split; [reflexivity|].
  assert (Hms : 0 <= t mod msPerDay < msPerDay) by (apply Z.mod_pos_bound; unfold msPerDay; lia).
  pose proof (Z.div_mod t msPerDay ltac:(unfold msPerDay; lia)) as Hdm.
  set (ms := t mod msPerDay) in *. set (day := t / msPerDay) in *.
  clearbody ms day. unfold msPerDay in *.
  rewrite Date_parse_iso_parts by (try lia; clear -Hms; Z.to_euclidean_division_equations; lia).
  f_equal. unfold MakeDate, msPerDay. rewrite MakeDay_civil by lia. rewrite Hinv.
  clear -Hms Hdm. Z.to_euclidean_division_equations. lia.
Qed.

End DateFacts.

(* ------------------------------------------------------------------ *)
(** ** The upcoming events on the map *)

Module MapFacts.
Import EventType CreateEvent JSDate EventsMapView DateFacts.
Local Open Scope Z_scope.

Lemma TimeClip_fix (x y : Z) : TimeClip x = Some y -> TimeClip y = Some y.
Proof.
  unfold TimeClip. destruct (Z.abs x <=? 8640000000000000) eqn:E; [|discriminate].
  intros H. injection H as <-. rewrite E. reflexivity.
Qed.

Lemma setHours_clip (offset_of_utc offset_of_local : Z -> Z) (tv : option Z) (h m s ms : number) (t : Z) :
  setHours offset_of_utc offset_of_local tv h m s ms = Some t -> TimeClip t = Some t.
Proof.
  unfold setHours. destruct tv; [|discriminate].
  destruct (MakeTime h m s ms); [|discriminate]. apply TimeClip_fix.
Qed.

(** X1: futureEvents works event by event: on [l1 ++ l2] it is its result on
    [l1] followed by its result on [l2], and a single event is kept exactly
    when its date parses to a moment after [now].  So the kept events are
    those of the input with such a date, in their order and with their
    repetitions; and as the clock advances the list only shrinks. *)
Theorem futureEvents_after_now (Date_parse : string -> option Z) (now now' : Z)
  (events : list Event) :
  (forall l1 l2, futureEvents Date_parse now (l1 ++ l2) =
     futureEvents Date_parse now l1 ++ futureEvents Date_parse now l2) /\
  (forall e, futureEvents Date_parse now [e] =
     match new_Date Date_parse (dateTime e) with
     | Some t => if now <? t then [e] else []
     | None => []
     end) /\
  (forall e, In e (futureEvents Date_parse now events) <->
     In e events /\ exists t, new_Date Date_parse (dateTime e) = Some t /\ now < t) /\
  (now <= now' ->
   futureEvents Date_parse now' events =
     futureEvents Date_parse now' (futureEvents Date_parse now events)).
Proof.
  split; [|split; [|split]].
  - intros l1 l2. unfold futureEvents. apply List.filter_app.
  - intros e. unfold futureEvents. cbn [List.filter].
    destruct (new_Date Date_parse (dateTime e)); [destruct (now <? z)|]; reflexivity.
  - intros e. unfold futureEvents. rewrite filter_In.
    destruct (new_Date Date_parse (dateTime e)) as [t|].
    + rewrite Z.ltb_lt. split; [intros [? ?]; eauto | intros (? & t' & Ht & ?)].
      injection Ht as <-. auto.
    + split; [intros [_ H]; discriminate | intros (_ & t & Ht & _); discriminate].
  - intros Hle. induction events as [|e r IH]; [reflexivity|].
    unfold futureEvents in *. cbn [List.filter].
    destruct (new_Date Date_parse (dateTime e)) as [t|] eqn:Ht.
    + destruct (now' <? t) eqn:E1.
      * replace (now <? t) with true by (symmetry; apply Z.ltb_lt in E1; apply Z.ltb_lt; lia).
        cbn [List.filter]. rewrite Ht, E1, <- IH. reflexivity.
      * destruct (now <? t); cbn [List.filter]; [rewrite Ht, E1|]; exact IH.
    + exact IH.
Qed.

(** X2: for any date parser that reads back what toISOString writes (as
    ECMAScript requires of Date.parse), the event Save submits is read back
    on the map at the moment the form computed, and is listed exactly while
    that moment is ahead. *)
Theorem created_event_on_map (Number : string -> number) (Date_parse : string -> option Z)
  (offset_of_utc offset_of_local : Z -> Z)
  (st : FormState) (uuid : string) (auth_id : option string) (e : Event) (now : Z)
  (Hrt : forall t s, TimeClip t = Some t -> toISOString (Some t) = Some s ->
                     Date_parse s = Some t)
  (Hsave : handleSave Number Date_parse offset_of_utc offset_of_local st uuid auth_id =
           Submitted e) :
  exists t,
    isoDateTime Number Date_parse offset_of_utc offset_of_local (date st) (time st) =
      toISOString (Some t) /\
    new_Date Date_parse (dateTime e) = Some t /\
    futureEvents Date_parse now [e] = (if now <? t then [e] else []).
Proof.
  unfold handleSave in Hsave.
  destruct (isoDateTime _ _ _ _ (date st) (time st)) as [iso|] eqn:Hiso; [|discriminate].
  destruct (canSave Number st iso) eqn:Hc; cbn in Hsave; [|discriminate].
  injection Hsave as <-. cbn [dateTime].
  unfold canSave in Hc. repeat (apply andb_prop in Hc as [Hc ?]).
  match goal with H : (0 <? String.length iso)%nat = true |- _ =>
    apply CreateEventFacts.length_pos_nonempty in H as Hne end.
  unfold isoDateTime in Hiso.
  destruct (negb (truthy_string (date st)) || negb (truthy_string (time st))).
  { injection Hiso as <-. contradiction. }
  destruct (setHours _ _ _ _ _ _ _) as [t|] eqn:Hs; [|discriminate].
  apply setHours_clip in Hs.
  exists t. split; [rewrite Hiso; reflexivity|].
  assert (Hd : new_Date Date_parse iso = Some t)
    by (unfold new_Date; rewrite (Hrt t iso Hs Hiso); exact Hs).
  split; [exact Hd|].
  unfold futureEvents. cbn [List.filter EventType.dateTime]. rewrite Hd. destruct (now <? t); reflexivity.
Qed.

Lemma created_event_on_map_witness :
  (forall t s, TimeClip t = Some t -> toISOString (Some t) = Some s ->
               Date_parse_iso s = Some t) /\
  handleSave decimal_Number Date_parse_iso (fun _ => 0) (fun _ => 0) sample_form "1" (Some "u1") =
    Submitted beach_cleanup /\
  exists t,
    isoDateTime decimal_Number Date_parse_iso (fun _ => 0) (fun _ => 0)
      (date sample_form) (time sample_form) = toISOString (Some t) /\
    new_Date Date_parse_iso (dateTime beach_cleanup) = Some t /\
    futureEvents Date_parse_iso 0 [beach_cleanup] = (if 0 <? t then [beach_cleanup] else []).
Proof.
  assert (Hrt : forall t s, TimeClip t = Some t -> toISOString (Some t) = Some s ->
                            Date_parse_iso s = Some t).
  { intros t s Ht Hs. destruct (iso_roundtrip t Ht) as (s' & Hs' & Hp).
    rewrite Hs in Hs'. injection Hs' as <-. exact Hp. }
  assert (H : handleSave decimal_Number Date_parse_iso (fun _ => 0) (fun _ => 0) sample_form "1"
                (Some "u1") = Submitted beach_cleanup) by (vm_compute; reflexivity).
  exact (conj Hrt (conj H (created_event_on_map decimal_Number Date_parse_iso (fun _ => 0)
                             (fun _ => 0) sample_form "1" (Some "u1") beach_cleanup 0 Hrt H))).
Defined.

End MapFacts.

(* ------------------------------------------------------------------ *)
(** ** Save: dates, times and trimmed text *)

Module FormFacts.
Import EventType CreateEvent JSDate CreateEventFacts.
Local Open Scope Z_scope.

Lemma drop_ws_hd (l : list ascii) (c : ascii) :
  hd_error (drop_ws l) = Some c -> js_ws c = false.
Proof.
  induction l as [|x r IH]; cbn; [discriminate|].
  destruct (js_ws x) eqn:E; [exact IH|]. intros H. injection H as <-. exact E.
Qed.

Lemma trim_list_ends (l : list ascii) (c : ascii) :
  hd_error (trim_list l) = Some c \/ hd_error (rev (trim_list l)) = Some c -> js_ws c = false.
Proof.
  unfold trim_list. set (a := drop_ws l). rewrite rev_involutive.
  intros [H|H]; [|exact (drop_ws_hd _ _ H)].
  destruct (drop_ws_suffix (rev a)) as [p Hp].
  apply (drop_ws_hd l). fold a.
  assert (Ha : a = rev (drop_ws (rev a)) ++ rev p)
    by (rewrite <- rev_app_distr, <- Hp, rev_involutive; reflexivity).
  rewrite Ha. destruct (rev (drop_ws (rev a))); [discriminate | exact H].
Qed.

Lemma canSave_empty_iso (Number : string -> number) (st : FormState) :
  canSave Number st "" = false.
Proof. unfold canSave. cbn [String.length Nat.ltb Nat.leb]. rewrite andb_false_r. reflexivity. Qed.

Lemma truthy_string_ne (s : string) : s <> ""%string -> truthy_string s = true.
Proof. intros H. unfold truthy_string. apply String.eqb_neq in H. rewrite H. reflexivity. Qed.

(** X3: Save with an empty date or time field shows the validation alert;
    with both filled in, a date that does not parse, or an hour or minute
    that reads as Infinity, makes the render throw. *)
Theorem handleSave_date_edges (Number : string -> number) (Date_parse : string -> option Z)
  (offset_of_utc offset_of_local : Z -> Z) (st : FormState) (uuid : string)
  (auth_id : option string) :
  (date st = ""%string \/ time st = ""%string ->
   handleSave Number Date_parse offset_of_utc offset_of_local st uuid auth_id = ValidationAlert) /\
  (date st <> ""%string -> time st <> ""%string ->
   (new_Date Date_parse (date st) = None \/
    exists neg, nth_error (map Number (split ":"%char (time st))) 0 = Some (Infinity neg) \/
                nth_error (map Number (split ":"%char (time st))) 1 = Some (Infinity neg)) ->
   handleSave Number Date_parse offset_of_utc offset_of_local st uuid auth_id = RenderThrew).
Proof.
  unfold handleSave, isoDateTime. split.
  - intros [H|H]; rewrite H; cbn [truthy_string String.eqb negb orb];
      [|rewrite orb_true_r]; cbn; rewrite canSave_empty_iso; reflexivity.
  - intros Hd Ht Hbad. rewrite (truthy_string_ne _ Hd), (truthy_string_ne _ Ht). cbn [negb orb].
    destruct Hbad as [Hn | (neg & [Hi|Hi])].
    + unfold setHours. rewrite Hn. reflexivity.
    + unfold setHours. destruct (new_Date Date_parse (date st)); [|reflexivity].
      rewrite Hi. unfold MakeTime. cbn. reflexivity.
    + unfold setHours. destruct (new_Date Date_parse (date st)); [|reflexivity].
      rewrite Hi. unfold MakeTime.
      destruct (ToIntegerOrInfinity (or0 _)); reflexivity.
Qed.

(** X4: the name and description Save submits are the trimmed inputs, and
    neither starts nor ends with white space. *)
Theorem submitted_text_trimmed (Number : string -> number) (Date_parse : string -> option Z)
  (offset_of_utc offset_of_local : Z -> Z) (st : FormState) (uuid : string)
  (auth_id : option string) (e : Event)
  (Hsave : handleSave Number Date_parse offset_of_utc offset_of_local st uuid auth_id =
           Submitted e) :
  EventType.name e = trim (CreateEvent.name st) /\
  EventType.description e = trim (CreateEvent.description st) /\
  (forall c, hd_error (list_ascii_of_string (EventType.name e)) = Some c \/
             hd_error (rev (list_ascii_of_string (EventType.name e))) = Some c -> js_ws c = false) /\
  (forall c, hd_error (list_ascii_of_string (EventType.description e)) = Some c \/
             hd_error (rev (list_ascii_of_string (EventType.description e))) = Some c ->
             js_ws c = false).
Proof.
  unfold handleSave in Hsave.
  destruct (isoDateTime _ _ _ _ (date st) (time st)) as [iso|]; [|discriminate].
  destruct (canSave Number st iso); cbn in Hsave; [|discriminate].
  injection Hsave as <-. cbn [EventType.name EventType.description].
  unfold trim. rewrite !list_ascii_of_string_of_list_ascii.
  split; [reflexivity|]. split; [reflexivity|].
  split; intros c; apply trim_list_ends.
Qed.

Lemma submitted_text_trimmed_witness :
  handleSave decimal_Number Date_parse_iso (fun _ => 0) (fun _ => 0) sample_form "1" (Some "u1") =
    Submitted beach_cleanup /\
  EventType.name beach_cleanup = trim (CreateEvent.name sample_form).
Proof.
  assert (H : handleSave decimal_Number Date_parse_iso (fun _ => 0) (fun _ => 0) sample_form "1"
                (Some "u1") = Submitted beach_cleanup) by (vm_compute; reflexivity).
  exact (conj H (proj1 (submitted_text_trimmed decimal_Number Date_parse_iso (fun _ => 0)
                          (fun _ => 0) sample_form "1" (Some "u1") beach_cleanup H))).
Defined.

(** X5: with the device clock on UTC and a date that parses to a midnight,
    the form's date-time is that midnight plus the hours and minutes typed,
    for whole hours and minutes of magnitude at most 10^6.  In that range
    every intermediate value of MakeTime, MakeDate and TimeClip is an integer
    below 2^53, so the IEEE arithmetic of the runtime is exact and agrees
    with the integer arithmetic of the model. *)
Theorem isoDateTime_utc (Number : string -> number) (Date_parse : string -> option Z)
  (date time : string) (t0 h mi : Z)
  (Hd : date <> ""%string) (Ht : time <> ""%string)
  (Hdate : new_Date Date_parse date = Some t0) (Hmid : t0 mod msPerDay = 0)
  (Hh : nth_error (map Number (split ":"%char time)) 0 = Some (Num h 0))
  (Hm : nth_error (map Number (split ":"%char time)) 1 = Some (Num mi 0))
  (Hhb : Z.abs h <= 1000000) (Hmb : Z.abs mi <= 1000000) :
  isoDateTime Number Date_parse (fun _ => 0) (fun _ => 0) date time =
    toISOString (TimeClip (t0 + h * 3600000 + mi * 60000)).
Proof.
  unfold isoDateTime. rewrite (truthy_string_ne _ Hd), (truthy_string_ne _ Ht). cbn [negb orb].
  rewrite Hh, Hm. unfold setHours. rewrite Hdate.
  assert (Hor : forall k, ToIntegerOrInfinity (or0 (Some (Num k 0))) = Some k).
  { intros k. unfold or0, truthy_number. destruct (negb (k =? 0)) eqn:E; cbn.
    - rewrite Z.quot_1_r. reflexivity.
    - apply negb_false_iff, Z.eqb_eq in E. subst. reflexivity. }
  unfold MakeTime. rewrite !Hor. cbn [ToIntegerOrInfinity].
  f_equal. f_equal.
  pose proof (Z.div_mod t0 msPerDay ltac:(unfold msPerDay; lia)) as Hdm.
  rewrite Hmid in Hdm. rewrite Z.add_0_r, Z.quot_0_l by lia. lia.
Qed.

Lemma isoDateTime_utc_witness :
  Z.abs 14 <= 1000000 /\ Z.abs 30 <= 1000000 /\
  isoDateTime decimal_Number Date_parse_iso (fun _ => 0) (fun _ => 0) "2025-12-01" "14:30" =
    toISOString (TimeClip (1764547200000 + 14 * 3600000 + 30 * 60000)).
Proof.
  split; [lia|split; [lia|]].
  apply (isoDateTime_utc decimal_Number Date_parse_iso "2025-12-01" "14:30" 1764547200000 14 30);
    try (intro; discriminate); try lia; vm_compute; reflexivity.
Defined.

End FormFacts.

(* ------------------------------------------------------------------ *)
(** ** Image picking, upload, location and sizes *)

Module MediaFacts.
Import EventType CreateEvent CreateEventMedia CreateEventFacts FormFacts.
Local Open Scope Z_scope.

Lemma or_str_ne (a : option string) (b : string) : b <> ""%string -> or_str a b <> ""%string.
Proof.
  intros Hb. unfold or_str, truthy_string. destruct a as [s|]; [|exact Hb].
  destruct (String.eqb s "") eqn:E; cbn; [exact Hb|]. apply String.eqb_neq. exact E.
Qed.

Lemma canSave_no_image (Number : string -> number) (st : FormState) (iso : string) :
  imageRemoteUrl st = None -> canSave Number st iso = false.
Proof. intros H. unfold canSave. rewrite H, andb_false_r. reflexivity. Qed.

Lemma handleSave_no_image (Number : string -> number) (Date_parse : string -> option Z)
  (offset_of_utc offset_of_local : Z -> Z) (st : FormState) (uuid : string)
  (auth_id : option string) (e : Event) :
  imageRemoteUrl st = None ->
  handleSave Number Date_parse offset_of_utc offset_of_local st uuid auth_id <> Submitted e.
Proof.
  intros H. unfold handleSave. destruct (isoDateTime _ _ _ _ _ _); [|discriminate].
  rewrite canSave_no_image by exact H. discriminate.
Qed.

(** X6: after a successful pick from the library or the camera the screen
    holds the first asset, under a non-empty name, and the uploaded URL is
    cleared, so Save cannot submit until the image is uploaded again. *)
Theorem picked_image_needs_upload (status : string) (r : PickerResult) (a : Asset)
  (rest : list Asset) (s : ScreenState)
  (Hg : status = "granted"%string) (Hc : canceled r = false) (Ha : assets r = Some (a :: rest)) :
  forall s', s' = fst (pickFromLibrary status (inl r) s) \/ s' = fst (takePhoto status (inl r) s) ->
    imageUri s' = Some (uri a) /\ imageBase64 s' = base64 a /\
    (exists n, imageName s' = Some n /\ n <> ""%string) /\
    imageRemoteUrl (form s') = None /\
    forall Number Date_parse offset_of_utc offset_of_local uuid auth_id e,
      handleSave Number Date_parse offset_of_utc offset_of_local (form s') uuid auth_id <>
        Submitted e.
Proof.
  intros s' Hs'. subst status.
  assert (Hdone : imageRemoteUrl (form s') = None /\
                  imageUri s' = Some (uri a) /\ imageBase64 s' = base64 a /\
                  exists n, imageName s' = Some n /\ n <> ""%string).
  { destruct Hs' as [-> | ->]; unfold pickFromLibrary, takePhoto; cbn [negb String.eqb];
      rewrite Hc, Ha; cbn [fst imageUri imageBase64 imageName form set_imageRemoteUrl CreateEvent.imageRemoteUrl]; (split; [reflexivity|]); (split; [reflexivity|]);
      (split; [reflexivity|]); eexists; (split; [reflexivity|]);
      repeat apply or_str_ne; intro; discriminate. }
  destruct Hdone as (Hn & Hu & Hb & Hname).
  split; [exact Hu|]. split; [exact Hb|]. split; [exact Hname|]. split; [exact Hn|].
  intros. apply handleSave_no_image. exact Hn.
Qed.

Lemma picked_image_needs_upload_witness :
  let r := mkPickerResult false (Some [mkAsset "file:///photos/beach.jpg" (Some "aGVsbG8=") None None]) in
  let s := mkScreen sample_form None None None None false in
  imageRemoteUrl (form (fst (pickFromLibrary "granted" (inl r) s))) = None.
Proof.
  intros r s.
  exact (proj1 (proj2 (proj2 (proj2 (picked_image_needs_upload "granted" r
           (mkAsset "file:///photos/beach.jpg" (Some "aGVsbG8=") None None) [] s
           eq_refl eq_refl eq_refl _ (or_introl eq_refl)))))).
Defined.

(** X7: the pickers change the screen state only for a granted, not
    canceled pick with at least one asset; otherwise the state is kept and
    at most one alert is shown. *)
Theorem pickers_change_only_on_success (status : string) (launch : Launch) (s : ScreenState) :
  forall p, p = pickFromLibrary status launch s \/ p = takePhoto status launch s ->
    (fst p = s /\ (snd p = [] \/ exists title msg, snd p = [MAlert title msg])) \/
    (status = "granted"%string /\ snd p = [] /\
     exists r a rest, launch = inl r /\ canceled r = false /\ assets r = Some (a :: rest)).
Proof.
  intros p Hp.
  destruct (String.eqb status "granted") eqn:Eg.
  - apply String.eqb_eq in Eg. subst status.
    destruct launch as [r|msg].
    + destruct (canceled r) eqn:Ec; [|destruct (assets r) as [[|a rest]|] eqn:Ea].
      all: destruct Hp as [-> | ->]; unfold pickFromLibrary, takePhoto; cbn [negb String.eqb];
        rewrite ?Ec, ?Ea; cbn.
      all: first [ left; split; [reflexivity | left; reflexivity]
                 | right; split; [reflexivity|]; split; [reflexivity|]; eauto 7 ].
    + left. destruct Hp as [-> | ->]; unfold pickFromLibrary, takePhoto; cbn [negb String.eqb];
        cbn; split; eauto.
  - left. destruct Hp as [-> | ->]; unfold pickFromLibrary, takePhoto; rewrite Eg; cbn; split; eauto.
Qed.

Lemma pickers_change_only_on_success_witness :
  let s := mkScreen sample_form None None None None false in
  fst (pickFromLibrary "denied" (inr None) s) = s.
Proof.
  intros s.
  destruct (pickers_change_only_on_success "denied" (inr None) s _ (or_introl eq_refl))
    as [[H _] | [H _]]; [exact H | discriminate H].
Defined.

(** X8: with no picked image, upload only alerts; otherwise it uploads the
    picked image exactly once, between setting and clearing the uploading
    flag, and the stored URL becomes the non-empty URL the service returned
    or stays as it was. *)
Theorem upload_flow (upload : string -> UploadResult) (s : ScreenState) :
  ((imageBase64 s = None \/ imageBase64 s = Some ""%string) ->
   uploadPickedImage upload s = (s, [MAlert "Upload" "Please pick an image first."])) /\
  (forall b, imageBase64 s = Some b -> b <> ""%string ->
   let '(s', effs) := uploadPickedImage upload s in
   List.filter (fun x => match x with MUpload _ => true | _ => false end) effs = [MUpload b] /\
   hd_error effs = Some (MSetUploading true) /\
   hd_error (rev effs) = Some (MSetUploading false) /\
   imageUploading s' = false /\ imageBase64 s' = imageBase64 s /\ imageUri s' = imageUri s /\
   (imageRemoteUrl (form s') = imageRemoteUrl (form s) \/
    exists u, upload b = inl (Some u) /\ u <> ""%string /\ imageRemoteUrl (form s') = Some u)).
Proof.
  split.
  - intros [H|H]; unfold uploadPickedImage; rewrite H; reflexivity.
  - intros b Hb Hne. unfold uploadPickedImage. rewrite Hb, (truthy_string_ne _ Hne). cbn [negb].
    destruct (upload b) as [[u|]|msg] eqn:Eu.
    + destruct (truthy_string u) eqn:Et.
      * cbn. repeat split; auto. right. exists u. repeat split; auto.
        unfold truthy_string in Et. apply negb_true_iff, String.eqb_neq in Et. exact Et.
      * cbn. repeat split; auto.
    + cbn. repeat split; auto.
    + cbn. repeat split; auto.
Qed.

(** X9: picking a new image and uploading it, starting from a form Save would
    submit, gives a form Save submits with the same event except for the
    image URL, which is the uploaded one. *)
Theorem reupload_replaces_image (Number : string -> number) (Date_parse : string -> option Z)
  (offset_of_utc offset_of_local : Z -> Z) (uuid : string) (auth_id : option string)
  (s : ScreenState) (status : string) (r : PickerResult) (a : Asset) (rest : list Asset)
  (b u : string) (upload : string -> UploadResult) (e0 : Event)
  (Hsave : handleSave Number Date_parse offset_of_utc offset_of_local (form s) uuid auth_id =
           Submitted e0)
  (Hg : status = "granted"%string) (Hc : canceled r = false) (Ha : assets r = Some (a :: rest))
  (Hb : base64 a = Some b) (Hbne : b <> ""%string)
  (Hu : upload b = inl (Some u)) (Hune : u <> ""%string) :
  let s2 := fst (uploadPickedImage upload (fst (pickFromLibrary status (inl r) s))) in
  imageRemoteUrl (form s2) = Some u /\
  handleSave Number Date_parse offset_of_utc offset_of_local (form s2) uuid auth_id =
    Submitted (mkEvent (EventType.id e0) (EventType.name e0) (EventType.description e0)
                 (dateTime e0) (organizerId e0) (position e0) (Some u)
                 (EventType.volunteersNeeded e0) (volunteersIds e0)).
Proof.
  assert (Eg : String.eqb status "granted" = true) by (subst status; reflexivity).
  unfold pickFromLibrary. rewrite Eg. cbn [negb]. rewrite Hc, Ha. cbv beta iota zeta. cbn [fst].
  unfold uploadPickedImage. cbn [imageBase64]. rewrite Hb. cbv beta iota zeta.
  rewrite (truthy_string_ne _ Hbne). cbn [negb]. rewrite Hu.
  cbn [negb]. rewrite (truthy_string_ne _ Hune). cbn [fst form].
  destruct (form s) as [nm ds dt tm vn la lo img]. unfold set_imageRemoteUrl. cbn.
  split; [reflexivity|].
  unfold handleSave in *. cbn [CreateEvent.date CreateEvent.time] in *.
  destruct (isoDateTime _ _ _ _ dt tm) as [iso|]; [|discriminate].
  destruct (canSave Number (mkForm nm ds dt tm vn la lo img) iso) eqn:Ec; cbn in Hsave; [|discriminate].
  injection Hsave as <-.
  replace (canSave Number (mkForm nm ds dt tm vn la lo (Some u)) iso) with true.
  - reflexivity.
  - symmetry. unfold canSave in *. cbn in *. rewrite (truthy_string_ne _ Hune).
    apply andb_prop in Ec as [Ec _]. rewrite Ec. reflexivity.
Qed.

Lemma reupload_replaces_image_witness :
  let s := mkScreen sample_form None None None None false in
  let a := mkAsset "file:///photos/beach2.jpg" (Some "aGVsbG8=") None None in
  let r := mkPickerResult false (Some [a]) in
  let upload := fun _ : string => (inl (Some "https://i.ibb.co/beach2.jpg") : UploadResult) in
  imageRemoteUrl (form (fst (uploadPickedImage upload (fst (pickFromLibrary "granted" (inl r) s))))) =
    Some "https://i.ibb.co/beach2.jpg"%string.
Proof.
  intros s a r upload.
  assert (H : handleSave decimal_Number JSDate.Date_parse_iso (fun _ => 0) (fun _ => 0) (form s) "1"
                (Some "u1") = Submitted beach_cleanup) by (vm_compute; reflexivity).
  exact (proj1 (reupload_replaces_image decimal_Number JSDate.Date_parse_iso (fun _ => 0) (fun _ => 0)
           "1" (Some "u1") s "granted" r a [] "aGVsbG8=" "https://i.ibb.co/beach2.jpg" upload
           beach_cleanup H eq_refl eq_refl eq_refl eq_refl ltac:(intro; discriminate) eq_refl
           ltac:(intro; discriminate))).
Defined.

(** ** toFixed and the coordinates of ensureLocation *)

Lemma parse_number_minus (c : ascii) (l r : list ascii) (k : Z) (d : nat) :
  Ascii.eqb c "-"%char = false ->
  JSON.parse_number (c :: l) = Some (JSON.JNum k d, r) ->
  JSON.parse_number ("-"%char :: c :: l) = Some (JSON.JNum (- k) d, r).
Proof.
  intros Hc. unfold JSON.parse_number. rewrite Hc. cbv beta iota zeta.
  replace (Ascii.eqb "-" "-") with true by reflexivity. cbv beta iota zeta.
  destruct (JSON.span_digits (c :: l)) as [[|x xs] s2]; [discriminate|].
  destruct s2 as [|c2 r2].
  - intros H. injection H as <- <- <-. reflexivity.
  - destruct (Ascii.eqb c2 "."); [destruct (JSON.span_digits r2) as [[|y ys] s3]|];
      try discriminate; intros H; injection H as <- <- <-; reflexivity.
Qed.

Lemma js_ws_digit (n : Z) : 0 <= n < 10 -> js_ws (JSON.digit_char n) = false.
Proof.
  intros H%JSONFacts.digit_cases.
  repeat destruct H as [<- | H]; [reflexivity .. | contradiction].
Qed.

Lemma print_number_nonneg_head (n : Z) (f : nat) :
  0 <= n -> exists c r, JSON.print_number n f = c :: r /\
    Ascii.eqb c "-"%char = false /\ js_ws c = false.
Proof.
  intros Hn. unfold JSON.print_number.
  replace (n <? 0) with false by (symmetry; apply Z.ltb_ge; exact Hn). cbn [app].
  set (a := Z.abs n / 10 ^ Z.of_nat f).
  pose proof (JSONFacts.ndig_pos a) as Hnd.
  destruct (JSON.ndig a) as [|k]; [lia|].
  destruct (pad_head k a) as (c & r & Hp & _ & Hm).
  rewrite Hp. exists c, (r ++ match f with O => [] | S _ => "."%char :: JSON.pad f (Z.abs n mod 10 ^ Z.of_nat f) end).
  split; [reflexivity|]. split; [exact Hm|].
  unfold JSON.pad in Hp. pose proof (JSONFacts.pad_digits_range (S k) a) as Hr.
  destruct (JSON.pad_digits (S k) a) as [|d0 ds]; [discriminate|].
  injection Hp as <- _. inversion Hr. apply js_ws_digit. assumption.
Qed.

Lemma toFixed_small (Number_toString : number -> string) (f : nat) (m : Z) (d : nat) :
  Z.abs m < 10 ^ 21 * 10 ^ Z.of_nat d ->
  toFixed Number_toString f (Num m d) =
    string_of_list_ascii ((if m <? 0 then ["-"%char] else []) ++
      JSON.print_number ((2 * Z.abs m * 10 ^ Z.of_nat f + 10 ^ Z.of_nat d) / (2 * 10 ^ Z.of_nat d)) f).
Proof.
  intros H. unfold toFixed.
  replace (10 ^ 21 * 10 ^ Z.of_nat d <=? Z.abs m) with false by (symmetry; apply Z.leb_gt; lia).
  reflexivity.
Qed.

Lemma round_half_up_bound (a F D : Z) :
  0 <= a -> 0 < D ->
  2 * Z.abs ((2 * a * F + D) / (2 * D) * D - a * F) <= D.
Proof.
  intros Ha HD.
  pose proof (Z.div_mod (2 * a * F + D) (2 * D) ltac:(lia)) as Hdm.
  pose proof (Z.mod_pos_bound (2 * a * F + D) (2 * D) ltac:(lia)) as Hb.
  set (q := (2 * a * F + D) / (2 * D)) in *. set (rm := (2 * a * F + D) mod (2 * D)) in *.
  clearbody q rm. nia.
Qed.

(** The text toFixed writes for f+1 decimals is a decimal numeral: read as
    a JSON number literal, it is the value rounded to f+1 decimals, within
    half a unit of the last place. *)
Lemma toFixed_numeral (Number_toString : number -> string) (f : nat) (m : Z) (d : nat) :
  Z.abs m < 10 ^ 21 * 10 ^ Z.of_nat d ->
  exists n, JSON.parse_number (list_ascii_of_string (toFixed Number_toString (S f) (Num m d))) =
              Some (JSON.JNum n (S f), []) /\
    2 * Z.abs (n * 10 ^ Z.of_nat d - m * 10 ^ Z.of_nat (S f)) <= 10 ^ Z.of_nat d.
Proof.
  intros Hm. rewrite toFixed_small by exact Hm.
  set (N := (2 * Z.abs m * 10 ^ Z.of_nat (S f) + 10 ^ Z.of_nat d) / (2 * 10 ^ Z.of_nat d)).
  assert (HD : 0 < 10 ^ Z.of_nat d) by (apply Z.pow_pos_nonneg; lia).
  assert (HN : 0 <= N) by (apply Z.div_pos; [pose proof (Z.abs_nonneg m); nia | lia]).
  assert (Hb : 2 * Z.abs (N * 10 ^ Z.of_nat d - Z.abs m * 10 ^ Z.of_nat (S f)) <= 10 ^ Z.of_nat d)
    by (apply round_half_up_bound; [apply Z.abs_nonneg | exact HD]).
  destruct (print_number_nonneg_head N (S f) HN) as (c & r & Hp & Hc & Hw).
  rewrite list_ascii_of_string_of_list_ascii.
  destruct (m <? 0) eqn:Es.
  - apply Z.ltb_lt in Es. exists (- N). cbn [app].
    rewrite Hp, (parse_number_minus c r [] N (S f) Hc).
    + split; [reflexivity|]. rewrite (Z.abs_neq m) in Hb by lia.
      replace (- N * 10 ^ Z.of_nat d - m * 10 ^ Z.of_nat (S f)) with
        (- (N * 10 ^ Z.of_nat d - - m * 10 ^ Z.of_nat (S f))) by ring.
      rewrite Z.abs_opp. exact Hb.
    + rewrite <- Hp. rewrite <- (app_nil_r (JSON.print_number N (S f))).
      apply JSONFacts.parse_number_print. exact I.
  - apply Z.ltb_ge in Es. exists N. cbn [app].
    rewrite <- (app_nil_r (JSON.print_number N (S f))), JSONFacts.parse_number_print by exact I.
    split; [reflexivity|]. rewrite (Z.abs_eq m) in Hb by lia. exact Hb.
Qed.

(** X10: when the location permission is granted and a position comes back,
    the promise resolves without alerts and the latitude and longitude
    fields hold text that is a decimal numeral with six decimals whose value
    is the coordinate rounded to six decimals (within 0.0000005). *)
Theorem location_fields_read_back (Number_toString : number -> string) (st : FormState)
  (m : Z) (d : nat) (m' : Z) (d' : nat)
  (Hla : Z.abs m < 10 ^ 21 * 10 ^ Z.of_nat d) (Hlo : Z.abs m' < 10 ^ 21 * 10 ^ Z.of_nat d') :
  let '(st', effs, resolved) :=
    ensureLocation Number_toString "granted" (Some (Num m d, Num m' d')) st in
  resolved = true /\ effs = [] /\
  lat st' <> ""%string /\ lng st' <> ""%string /\
  (exists n, JSON.parse_number (list_ascii_of_string (lat st')) = Some (JSON.JNum n 6, []) /\
     2 * Z.abs (n * 10 ^ Z.of_nat d - m * 10 ^ 6) <= 10 ^ Z.of_nat d) /\
  (exists n', JSON.parse_number (list_ascii_of_string (lng st')) = Some (JSON.JNum n' 6, []) /\
     2 * Z.abs (n' * 10 ^ Z.of_nat d' - m' * 10 ^ 6) <= 10 ^ Z.of_nat d').
Proof.
  unfold ensureLocation. cbn [negb String.eqb Ascii.eqb Bool.eqb].
  cbn [set_lat_lng CreateEvent.lat CreateEvent.lng].
  destruct (toFixed_numeral Number_toString 5 m d Hla) as (n & Hn & Hbn).
  destruct (toFixed_numeral Number_toString 5 m' d' Hlo) as (n' & Hn' & Hbn').
  assert (Hne : forall x k, JSON.parse_number (list_ascii_of_string x) = Some (JSON.JNum k 6, []) ->
                            x <> ""%string)
    by (intros x k Hx ->; discriminate).
  split; [reflexivity|]. split; [reflexivity|].
  split; [exact (Hne _ _ Hn)|]. split; [exact (Hne _ _ Hn')|].
  split; [exists n | exists n']; split; assumption.
Qed.

Lemma location_fields_read_back_witness :
  Z.abs 510447123 < 10 ^ 21 * 10 ^ Z.of_nat 7 /\ Z.abs (-1140719) < 10 ^ 21 * 10 ^ Z.of_nat 4 /\
  let '(st', effs, resolved) :=
    ensureLocation (fun _ => ""%string) "granted" (Some (Num 510447123 7, Num (-1140719) 4))
      sample_form in
  resolved = true /\ effs = [] /\
  lat st' <> ""%string /\ lng st' <> ""%string /\
  (exists n, JSON.parse_number (list_ascii_of_string (lat st')) = Some (JSON.JNum n 6, []) /\
     2 * Z.abs (n * 10 ^ Z.of_nat 7 - 510447123 * 10 ^ 6) <= 10 ^ Z.of_nat 7) /\
  (exists n', JSON.parse_number (list_ascii_of_string (lng st')) = Some (JSON.JNum n' 6, []) /\
     2 * Z.abs (n' * 10 ^ Z.of_nat 4 - (-1140719) * 10 ^ 6) <= 10 ^ Z.of_nat 4).
Proof.
  assert (H1 : Z.abs 510447123 < 10 ^ 21 * 10 ^ Z.of_nat 7) by (vm_compute; reflexivity).
  assert (H2 : Z.abs (-1140719) < 10 ^ 21 * 10 ^ Z.of_nat 4) by (vm_compute; reflexivity).
  exact (conj H1 (conj H2 (location_fields_read_back (fun _ => ""%string) sample_form
                             510447123 7 (-1140719) 4 H1 H2))).
Defined.

(** ** formatBytes *)

Lemma append_suffix_ne (p : string) (c : ascii) (r : string) : (p ++ String c r)%string <> ""%string.
Proof. destruct p; discriminate. Qed.

Lemma formatBytes_num (Number_toString : number -> string) (m : Z) (d : nat) :
  formatBytes Number_toString (Some (Num m d)) =
    if m <? 1024 * 10 ^ Z.of_nat d then (Number_toString (Num m d) ++ " B")%string
    else if m * 9765625 <? 1024 * 10 ^ Z.of_nat (d + 10)
    then (toFixed Number_toString 1 (Num (m * 9765625) (d + 10)) ++ " KB")%string
    else (toFixed Number_toString 1 (Num (m * 9765625 * 9765625) (d + 10 + 10)) ++ " MB")%string.
Proof.
  unfold formatBytes, truthy_number. destruct (m =? 0); reflexivity.
Qed.

(** X11: formatBytes gives the empty string exactly for undefined and NaN;
    0 and every other number get a unit: the text ends in " B", " KB" or
    " MB". *)
Theorem formatBytes_empty_iff (Number_toString : number -> string) (bytes : option number) :
  (formatBytes Number_toString bytes = ""%string <-> bytes = None \/ bytes = Some NaN) /\
  (forall x, x <> NaN -> exists p,
     formatBytes Number_toString (Some x) = (p ++ " B")%string \/
     formatBytes Number_toString (Some x) = (p ++ " KB")%string \/
     formatBytes Number_toString (Some x) = (p ++ " MB")%string).
Proof.
  split.
  - split.
    + destruct bytes as [[m d| |neg]|]; [| right; reflexivity | | left; reflexivity].
      * rewrite formatBytes_num. repeat destruct (_ <? _); intros H; exfalso; revert H;
          apply append_suffix_ne.
      * unfold formatBytes. cbn. destruct neg; cbn; intros H; exfalso; revert H;
          apply append_suffix_ne.
    + intros [-> | ->]; reflexivity.
  - intros [m d| |neg] Hx; [|congruence|].
    + rewrite formatBytes_num.
      destruct (_ <? _); [eexists; left; reflexivity|].
      destruct (_ <? _); eexists; right; [left|right]; reflexivity.
    + unfold formatBytes. cbn -[append].
      destruct neg; eexists; [left|right; right]; reflexivity.
Qed.

(** X12: the unit formatBytes picks: B below 1024 bytes (and for -Infinity),
    KB from 1024 up to 1024 * 1024 bytes, MB from there on (and for
    Infinity, shown as "Infinity MB"). *)
Theorem formatBytes_units (Number_toString : number -> string) (m : Z) (d : nat) :
  (m < 1024 * 10 ^ Z.of_nat d ->
   exists p, formatBytes Number_toString (Some (Num m d)) = (p ++ " B")%string) /\
  (1024 * 10 ^ Z.of_nat d <= m < 1048576 * 10 ^ Z.of_nat d ->
   exists p, formatBytes Number_toString (Some (Num m d)) = (p ++ " KB")%string) /\
  (1048576 * 10 ^ Z.of_nat d <= m ->
   exists p, formatBytes Number_toString (Some (Num m d)) = (p ++ " MB")%string) /\
  (exists p, formatBytes Number_toString (Some (Infinity true)) = (p ++ " B")%string) /\
  formatBytes Number_toString (Some (Infinity false)) = "Infinity MB"%string.
Proof.
  rewrite formatBytes_num.
  assert (HD : 0 < 10 ^ Z.of_nat d) by (apply Z.pow_pos_nonneg; lia).
  assert (Hp : 10 ^ Z.of_nat (d + 10) = 10 ^ Z.of_nat d * 10000000000)
    by (rewrite Nat2Z.inj_add, Z.pow_add_r by lia; reflexivity).
  rewrite Hp.
  split; [|split; [|split; [|split]]].
  - intros H. replace (m <? 1024 * 10 ^ Z.of_nat d) with true by (symmetry; apply Z.ltb_lt; lia).
    eexists; reflexivity.
  - intros H. replace (m <? 1024 * 10 ^ Z.of_nat d) with false by (symmetry; apply Z.ltb_ge; lia).
    replace (m * 9765625 <? 1024 * (10 ^ Z.of_nat d * 10000000000)) with true
      by (symmetry; apply Z.ltb_lt; lia).
    eexists; reflexivity.
  - intros H. replace (m <? 1024 * 10 ^ Z.of_nat d) with false by (symmetry; apply Z.ltb_ge; lia).
    replace (m * 9765625 <? 1024 * (10 ^ Z.of_nat d * 10000000000)) with false
      by (symmetry; apply Z.ltb_ge; lia).
    eexists; reflexivity.
  - eexists; reflexivity.
  - reflexivity.
Qed.

(** X13: the KB figure is rounded to one decimal, so a whole number of bytes
    from 1048525 up to 1048575 is shown as "1024.0 KB", not in MB. *)
Theorem formatBytes_1024_KB (Number_toString : number -> string) (n : Z)
  (Hn : 1048525 <= n < 1048576) :
  formatBytes Number_toString (Some (Num n 0)) = "1024.0 KB"%string.
Proof.
  rewrite formatBytes_num. cbn [Z.of_nat Nat.add].
  replace (n <? 1024 * 10 ^ Z.of_nat 0) with false by (symmetry; apply Z.ltb_ge; cbn; lia).
  replace (n * 9765625 <? 1024 * 10 ^ Z.of_nat 10) with true by (symmetry; apply Z.ltb_lt; cbn; lia).
  rewrite toFixed_small by (cbn; lia).
  replace (n * 9765625 <? 0) with false by (symmetry; apply Z.ltb_ge; lia).
  replace ((2 * Z.abs (n * 9765625) * 10 ^ Z.of_nat 1 + 10 ^ Z.of_nat 10) / (2 * 10 ^ Z.of_nat 10))
    with 10240.
  - reflexivity.
  - rewrite Z.abs_eq by lia. change (10 ^ Z.of_nat 1) with 10.
    change (10 ^ Z.of_nat 10) with 10000000000.
    apply Z.div_unique with (r := 2 * (n * 9765625) * 10 + 10000000000 - 204800000000000); lia.
Qed.

Lemma formatBytes_1024_KB_witness :
  1048525 <= 1048575 < 1048576 /\
  formatBytes (fun _ => ""%string) (Some (Num 1048575 0)) = "1024.0 KB"%string.
Proof.
  assert (H : 1048525 <= 1048575 < 1048576) by lia.
  exact (conj H (formatBytes_1024_KB (fun _ => ""%string) 1048575 H)).
Defined.

End MediaFacts.

(* ------------------------------------------------------------------ *)
(** ** The loading flag and a corrupt cache on the events screen *)

Module ScreenFacts.
Import EventsMap.

Ltac unfold_screen :=
  unfold fetchAndCacheEvents, getFromNetworkFirst, try_finally, try_catch, bind, ret, throw,
    emit, AsyncStorage_getItem, AsyncStorage_setItem, setInCache, setEvents, setIsLoading,
    Alert_alert, getEvents_data, JSON_parse, run_effects in *;
  cbn -[JSON.parse JSON.stringify lookup insert delete] in *.

Ltac case_screen :=
  repeat (unfold_screen;
    first [ rewrite lookup_insert_eq in *
          | match goal with
            | |- context [match ?e with Some _ => _ | None => _ end] => destruct e eqn:?
            | |- context [match ?e with inl _ => _ | inr _ => _ end] => destruct e eqn:?
            | |- context [if ?b then _ else _] => destruct b eqn:?
            end ]); unfold_screen.

(** X14: every run of fetchAndCacheEvents, whatever the network and the
    storage do, starts by setting isLoading, ends with isLoading false and
    the scheduled fit, and toggles isLoading exactly twice. *)
Theorem fetch_loading_bracket (net : Promise JSON.value) (w : World) :
  isLoading (snd (fetchAndCacheEvents net w)) = false /\
  take 1 (run_effects (fetchAndCacheEvents net) w) = [SetIsLoading true] /\
  drop (length (run_effects (fetchAndCacheEvents net) w) - 2)
       (run_effects (fetchAndCacheEvents net) w) = [SetIsLoading false; ScheduleFit] /\
  List.filter (fun e => match e with SetIsLoading _ => true | _ => false end)
    (run_effects (fetchAndCacheEvents net) w) = [SetIsLoading true; SetIsLoading false].
Proof.
  destruct w as [st ok ev ld tr]. case_screen.
  all: rewrite <- ?app_assoc, drop_app_length; cbn; repeat split; reflexivity.
Qed.

(** JSON.parse rejects a text whose first character is neither JSON white
    space nor one a JSON value can start with. *)
Lemma parse_bad_start (c : ascii) (r : list ascii) :
  JSON.is_ws c = false -> Ascii.eqb c JSON.dq = false ->
  existsb (Ascii.eqb c) (list_ascii_of_string "{[-0123456789tfn") = false ->
  JSON.parse (c :: r) = None.
Proof.
  intros Hw Hq Hs.
  destruct c as [[] [] [] [] [] [] [] []];
    first [ discriminate Hw | discriminate Hq | discriminate Hs | vm_compute; reflexivity ].
Qed.

(** X15: with the loader modelled from the spec: when the request fails and
    the text cached under "events_future" is empty or starts with a
    character that is neither JSON white space nor one a JSON value can
    start with (so that JSON.parse throws on it), the screen shows the
    Offline alert and keeps the events it had; it clears isLoading and
    leaves the storage as it was.  A non-empty text makes the run reject
    with a SyntaxError; an empty one lets it complete. *)
Theorem corrupt_cache_offline (err : Error) (w : World) (text : list ascii)
  (Hs : store w !! "events_future" = Some text)
  (Hc : text = [] \/
        exists c r, text = c :: r /\ JSON.is_ws c = false /\ Ascii.eqb c JSON.dq = false /\
          existsb (Ascii.eqb c) (list_ascii_of_string "{[-0123456789tfn") = false) :
  events (snd (fetchAndCacheEvents (inr err) w)) = events w /\
  isLoading (snd (fetchAndCacheEvents (inr err) w)) = false /\
  store (snd (fetchAndCacheEvents (inr err) w)) = store w /\
  In (Notify "Offline" "Loaded events from cache.") (run_effects (fetchAndCacheEvents (inr err)) w) /\
  fst (fetchAndCacheEvents (inr err) w) = (if truthy text then inr SyntaxError else inl tt).
Proof.
  assert (Hp : JSON.parse text = None).
  { destruct Hc as [-> | (c & r & -> & Hw & Hq & Hl)];
      [vm_compute; reflexivity | apply parse_bad_start; assumption]. }
  clear Hc.
  destruct w as [st ok ev ld tr]. cbn in Hs.
  unfold_screen. rewrite Hs. unfold_screen. rewrite Hp. unfold_screen.
  rewrite Hs. unfold_screen.
  destruct (truthy text); unfold_screen; [rewrite Hp; unfold_screen|];
    rewrite <- ?app_assoc, drop_app_length; cbn; repeat split; auto 10.
Qed.

Lemma corrupt_cache_offline_witness :
  let w := mkWorld {[ "events_future" := list_ascii_of_string "oops" ]} true
             (JSON.JArr []) false [] in
  fst (fetchAndCacheEvents (inr (NetworkFailure "timeout")) w) = inr SyntaxError.
Proof.
  intros w.
  assert (Hs : store w !! "events_future" = Some (list_ascii_of_string "oops"))
    by apply lookup_insert_eq.
  assert (Hc : list_ascii_of_string "oops" = [] \/
        exists c r, list_ascii_of_string "oops" = c :: r /\ JSON.is_ws c = false /\
          Ascii.eqb c JSON.dq = false /\
          existsb (Ascii.eqb c) (list_ascii_of_string "{[-0123456789tfn") = false)
    by (right; exists "o"%char, (list_ascii_of_string "ops"); vm_compute; auto).
  exact (proj2 (proj2 (proj2 (proj2 (corrupt_cache_offline (NetworkFailure "timeout") w _ Hs Hc))))).
Defined.

End ScreenFacts.
